(** * ai-health-integrations-v1-teaser: queue, normaliser, policy gate,
    metrics and eval harness

  A shallow embedding of the TypeScript sources and the properties the
  specification states about them.

  Conventions of the embedding.
  - A JavaScript string is a [string]: a sequence of 8-bit code units.  The
    separators, tags and patterns the sources match on are ASCII; the
    string functions below ([split], [startsWith], [includes]) are the
    code-unit algorithms of the language.
  - Module-level mutable state ([seen], [q], [counters]) is passed
    explicitly; every operation returns its result and the next state.
  - A thrown exception is a [Throw] completion (or [None] where only one
    failure is possible); a function that cannot throw has a plain result.
  - Where the code casts instead of checking (the payloads that [asEvent]
    hands to [processEvent]) the value is a [Json.t], and reading a
    property of [undefined] or [null] throws.  Where an object is used as a
    map ([counters]) the members it inherits from [Object.prototype] are
    part of the model. *)

From Stdlib Require Import ZArith Lia Bool Ascii DecimalString DecimalPos DecimalZ.
From stdpp Require Import gmap strings list.

Set Default Proof Using "Type".

(** ** JavaScript string primitives *)

Module Js.

(** [s.startsWith(p)] *)
Fixpoint startsWith (s p : string) {struct p} : bool :=
  match p with
  | EmptyString => true
  | String c p' =>
      match s with
      | EmptyString => false
      | String d s' => Ascii.eqb c d && startsWith s' p'
      end
  end.

(** [s.includes(needle)]: some suffix of [s] starts with [needle]. *)
Fixpoint includes (s needle : string) : bool :=
  startsWith s needle ||
  match s with
  | EmptyString => false
  | String _ s' => includes s' needle
  end.

(** [s.split(sep)] for a one-character separator.  The result always has
    at least one element: [''.split('|')] is [['']]. *)
Fixpoint split (sep : ascii) (s : string) : list string :=
  match s with
  | EmptyString => [EmptyString]
  | String c s' =>
      if Ascii.eqb c sep then EmptyString :: split sep s'
      else match split sep s' with
           | x :: xs => String c x :: xs
           | [] => [String c EmptyString]
           end
  end.

(** [arr.find(pred)] *)
Fixpoint find {A} (pred : A -> bool) (arr : list A) : option A :=
  match arr with
  | [] => None
  | x :: xs => if pred x then Some x else find pred xs
  end.

(** Truthiness of a string: only [''] is falsy. *)
Definition truthy (s : string) : bool :=
  match s with EmptyString => false | String _ _ => true end.

(** [arr[i] || dflt] on an array of strings: an index out of range reads
    [undefined], and both [undefined] and [''] are falsy. *)
Definition at_or (arr : list string) (i : nat) (dflt : string) : string :=
  match arr !! i with
  | Some s => if truthy s then s else dflt
  | None => dflt
  end.

(** [String(n)] for an integer [n], as a template literal prints it. *)
Definition num_to_string (n : Z) : string :=
  NilZero.string_of_int (Z.to_int n).

End Js.

(** ** events/queue.ts *)

Module Queue.
Section WithPayload.

(** [payload: unknown] *)
Context {Payload : Type}.

Record QueueItem := mkItem { id : string; type : string; payload : Payload }.

(** The two module-level objects: [const seen = new Set<string>()] and
    [const q: QueueItem[] = []]. *)
Record State := mkState { seen : gset string; q : list QueueItem }.

Definition init : State := {| seen := ∅; q := [] |}.

Definition enqueue (item : QueueItem) (st : State) : bool * State :=
  if decide (id item ∈ seen st) then (false, st)
  else (true, {| seen := {[ id item ]} ∪ seen st; q := q st ++ [item] |}).

(** [q.shift()]: [None] is [undefined]. *)
Definition dequeue (st : State) : option QueueItem * State :=
  match q st with
  | [] => (None, st)
  | x :: rest => (Some x, {| seen := seen st; q := rest |})
  end.

Definition size (st : State) : nat := length (q st).

End WithPayload.
Arguments QueueItem : clear implicits.
Arguments State : clear implicits.
End Queue.

(** ** observability/metrics.ts *)

Module Metrics.

(** What a property of a [Counters] object holds.  The declared type is
    [Record<string, number>]; at run time the assignment of [inc] stores a
    string under a key that [counters] inherits (see [plusOne]). *)
Inductive Value := VNum (n : Z) | VStr (s : string).

(** The own properties of a [Counters] object. *)
Abbreviation Counters := (gmap string Value).

(** Objects live in a heap and are handled through references, so that a
    reader holding the result of [snapshot()] and the module mutating
    [counters] are told apart by the reference they hold.  Reference [0] is
    the module-level [const counters: Counters = {}]; [snapshot] allocates
    at the end of the heap. *)
Abbreviation Ref := nat.
Abbreviation Heap := (list Counters).

Definition countersRef : Ref := 0.

Definition init : Heap := [∅].

(** [counters] is created by [{}], so its prototype is [Object.prototype]
    and [counters[key]] reads a member of it when [key] is not an own
    property.  These are the methods of [Object.prototype]; its one other
    member is the accessor [__proto__]. *)
Definition methodsOfObjectPrototype : list string :=
  [ "constructor"; "__defineGetter__"; "__defineSetter__"; "hasOwnProperty";
    "__lookupGetter__"; "__lookupSetter__"; "isPrototypeOf";
    "propertyIsEnumerable"; "toString"; "valueOf"; "toLocaleString" ].

(** The string that an inherited member converts to as an operand of [+]:
    a built-in method prints as its source text ([constructor] is the
    function [Object]), and [__proto__] reads the prototype object, which
    prints as [[object Object]].  [None]: [key] names no inherited
    member. *)
Definition inheritedText (key : string) : option string :=
  if String.eqb key "__proto__" then Some "[object Object]"
  else if existsb (String.eqb key) methodsOfObjectPrototype then
    Some ("function "
          +:+ (if String.eqb key "constructor" then "Object" else key)
          +:+ "() { [native code] }")
  else None.

(** [n + 1] on a number holding a count.  Numbers are IEEE-754 doubles:
    the sum is exact while [n < 2^53], and at [2^53] it rounds back to
    [2^53] (ties to even).  Counts reached from [{}] stay in [0 .. 2^53]. *)
Definition add1 (n : Z) : Z :=
  if (n <? 2 ^ 53)%Z then (n + 1)%Z else n.

(** [(counters[key] || 0) + 1].  [undefined], [0] and [''] are falsy, and
    give the number [0 + 1]; a number is added to; a non-empty string, or
    an inherited member (an object or a function, hence truthy), makes [+]
    a string concatenation. *)
Definition plusOne (key : string) (c : Counters) : Value :=
  match c !! key with
  | Some (VNum n) => VNum (add1 (if (n =? 0)%Z then 0%Z else n))
  | Some (VStr s) => if Js.truthy s then VStr (s +:+ "1") else VNum (add1 0)
  | None =>
      match inheritedText key with
      | Some text => VStr (text +:+ "1")
      | None => VNum (add1 0)
      end
  end.

(** [counters[key] = v] for a primitive [v].  Under [__proto__] the
    assignment runs the setter inherited from [Object.prototype], which
    ignores a value that is neither an object nor [null]: nothing is
    stored.  Under every other key it creates or updates an own property
    (the inherited methods are writable data properties, which an
    assignment shadows). *)
Definition assign (key : string) (v : Value) (c : Counters) : Counters :=
  if String.eqb key "__proto__" then c else <[ key := v ]> c.

(** [counters[key] = (counters[key] || 0) + 1] *)
Definition incObj (key : string) (c : Counters) : Counters :=
  assign key (plusOne key c) c.

Definition inc (key : string) (h : Heap) : Heap :=
  match h !! countersRef with
  | Some c => <[ countersRef := incObj key c ]> h
  | None => h
  end.

(** [({ ...counters })]: a new object with the own properties of
    [counters] (all of them were created by assignment, hence enumerable);
    the call returns the reference of the new object. *)
Definition snapshot (h : Heap) : Ref * Heap :=
  match h !! countersRef with
  | Some c => (length h, h ++ [c])
  | None => (length h, h ++ [∅])
  end.

End Metrics.

(** ** The canonical event ([NormalizedEvent], declared with the same shape
     in hl7-ingest.ts and agent-orchestrator.ts) *)

Module Event.

Inductive EventType := admission | discharge | transfer | update.

Record PatientName := mkName { family : string; given : string }.

Record Data := mkData {
  messageType : string;
  patientMRN : string;
  patientName : PatientName;
  patientDOB : string;
  patientGender : string;
  location : option string;             (* location?: string *)
  attendingPhysician : option string    (* attendingPhysician?: string *)
}.

Record Metadata := mkMetadata {
  originalHL7 : string;
  processedAt : string;
  source : string
}.

Record NormalizedEvent := mkEvent {
  id : string;
  type : EventType;
  patientId : string;
  facilityId : string;
  timestamp : string;
  data : Data;
  metadata : Metadata
}.

End Event.

(** ** scripts/hl7-ingest.ts, the stub parser
     ("Simple HL7 parser (stub implementation)") *)

Module Hl7IngestStub.
Import Js Event.

(** What one run reads from outside the message: [Date.now()],
    [Math.random().toString(36).substr(2, 9)] and the two
    [new Date().toISOString()], in evaluation order. *)
Record Run := mkRun {
  dateNow : Z;
  random36 : string;
  isoTimestamp : string;
  isoProcessedAt : string
}.

Definition LF : ascii := ascii_of_nat 10.

(** [lines.find(line => line.startsWith(tag))?.split('|') || []] *)
Definition segment (tag : string) (lines : list string) : list string :=
  match find (λ line, startsWith line tag) lines with
  | Some line => split "|" line
  | None => []
  end.

(** [None] is the [TypeError] of [lines[0].split] on an [undefined]
    [lines[0]], the one operation of the body that can throw. *)
Definition parseHL7Message (run : Run) (hl7 : string) : option NormalizedEvent :=
  let lines := split LF hl7 in
  line0 ← lines !! 0;
  let mshSegment := split "|" line0 in
  let pidSegment := segment "PID" lines in
  let pv1Segment := segment "PV1" lines in
  let messageType := at_or mshSegment 8 "ADT^A01" in
  let patientName :=
    match pidSegment !! 5 with
    | Some f => if truthy f then split "^" f else [""; ""]
    | None => [""; ""]
    end in
  Some {|
    id := "evt_" +:+ num_to_string (dateNow run) +:+ "_" +:+ random36 run;
    type := if includes messageType "A01" then admission else update;
    patientId := at_or pidSegment 3 "unknown";
    facilityId := at_or mshSegment 4 "FACILITY_001";
    timestamp := isoTimestamp run;
    data := {|
      messageType := messageType;
      patientMRN := at_or pidSegment 3 "";
      patientName := {| family := at_or patientName 0 "";
                        given := at_or patientName 1 "" |};
      patientDOB := at_or pidSegment 7 "";
      patientGender := at_or pidSegment 8 "";
      location := Some (at_or pv1Segment 3 "");
      attendingPhysician := Some (at_or pv1Segment 7 "")
    |};
    metadata := {|
      originalHL7 := hl7;
      processedAt := isoProcessedAt run;
      source := "hl7-ingest"
    |}
  |}.

(** The sample message of the script. *)
Definition sampleHL7Message : string :=
  "MSH|^~\&|SENDING_APP|SENDING_FACILITY|RECEIVING_APP|RECEIVING_FACILITY|20230813110800||ADT^A01|MSG123456|P|2.5"
  +:+ String LF "EVN||202308131108"
  +:+ String LF "PID|1||MRN123456^^^HOSPITAL^MR||DOE^JOHN^||19800101|M|||123 MAIN ST^^ANYTOWN^ST^12345||(555)123-4567||||||||||"
  +:+ String LF "PV1|1|I|ICU^101^01||||12345^SMITH^JANE^M^^^DR|||||||||||||||||||||||202308131100".

End Hl7IngestStub.

(** ** The ESM rewrite of hl7-ingest.ts
     ("Minimal HL7 normalizer (good enough for a teaser)") *)

Module Hl7Ingest.
Import Js Event.

(** [Date.now()] (read only when MSH-10 is missing) and the two
    [new Date().toISOString()]. *)
Record Run := mkRun {
  dateNow : Z;
  isoTimestamp : string;
  isoProcessedAt : string
}.

Definition LF : ascii := ascii_of_nat 10.
Definition CR : ascii := ascii_of_nat 13.

(** White space and line terminators among the 8-bit code units:
    TAB, LF, VT, FF, CR, SP and NBSP. *)
Definition isWhite (c : ascii) : bool :=
  let n := nat_of_ascii c in
  ((9 <=? n) && (n <=? 13)) || (n =? 32) || (n =? 160).

Fixpoint trimStart (s : string) : string :=
  match s with
  | EmptyString => EmptyString
  | String c s' => if isWhite c then trimStart s' else s
  end.

Fixpoint trimEnd (s : string) : string :=
  match s with
  | EmptyString => EmptyString
  | String c s' =>
      match trimEnd s' with
      | EmptyString => if isWhite c then EmptyString else String c EmptyString
      | t => String c t
      end
  end.

(** [s.trim()] *)
Definition trim (s : string) : string := trimEnd (trimStart s).

Definition push_front (c : ascii) (parts : list string) : list string :=
  match parts with
  | x :: xs => String c x :: xs
  | [] => [String c EmptyString]
  end.

(** [s.split(/\r?\n/)] *)
Fixpoint splitLines (s : string) : list string :=
  match s with
  | EmptyString => [EmptyString]
  | String c s' =>
      if Ascii.eqb c LF then EmptyString :: splitLines s'
      else match s' with
           | String d s'' =>
               if Ascii.eqb c CR && Ascii.eqb d LF
               then EmptyString :: splitLines s''
               else push_front c (splitLines s')
           | EmptyString => push_front c (splitLines s')
           end
  end.

(** [(lines.find(l => l.startsWith(tag)) ?? "").split("|")] *)
Definition segment (tag : string) (lines : list string) : list string :=
  split "|" (default "" (find (λ l, startsWith l tag) lines)).

Definition eventTypeOf (msgType : string) : EventType :=
  if includes msgType "A01" then admission
  else if includes msgType "A03" then discharge
  else if includes msgType "A02" then transfer
  else update.

Definition parseHL7Message (run : Run) (hl7 : string) : NormalizedEvent :=
  let lines := splitLines (trim hl7) in
  let msh := segment "MSH" lines in
  let pid := segment "PID" lines in
  let pv1 := segment "PV1" lines in
  let msgType := at_or msh 8 "ADT^A01" in
  let mrn := at_or pid 3 "MRN_UNKNOWN" in
  let nameParts := split "^" (at_or pid 5 "^") in
  let family := at_or nameParts 0 "" in
  let given := at_or nameParts 1 "" in
  let dob := at_or pid 7 "" in
  let sex := at_or pid 8 "" in
  let location := at_or pv1 3 "" in
  let attending := at_or pv1 7 "" in
  let controlId := at_or msh 9 ("MSG" +:+ num_to_string (dateNow run)) in
  let eventType := eventTypeOf msgType in
  {|
    id := "evt_" +:+ controlId;
    type := eventType;
    patientId := mrn;
    facilityId := at_or msh 4 "FACILITY_001";
    timestamp := isoTimestamp run;
    data := {|
      messageType := msgType;
      patientMRN := mrn;
      patientName := {| Event.family := family; Event.given := given |};
      patientDOB := dob;
      patientGender := sex;
      Event.location := Some location;
      attendingPhysician := Some attending
    |};
    metadata := {|
      originalHL7 := hl7;
      processedAt := isoProcessedAt run;
      source := "hl7-ingest"
    |}
  |}.

End Hl7Ingest.

(** ** Completions and the log *)

(** How a block of statements ends: normally, or by a thrown value. *)
Inductive Completion (A : Type) : Type :=
| Normal (a : A)
| Throw (err : string).
Arguments Normal {A} a.
Arguments Throw {A} err.

(** One call of [log(...args)] or [console.error(...args)]: its arguments,
  rendered as strings (the ISO time stamp that [log] prints first is left
  out). *)
Abbreviation LogLine := (list string).

(** ** scripts/agent-orchestrator.ts: the policy gate on a well-typed
       event *)

Module Orchestrator.
Import Js Event.

(** Values stored under [metadata]. *)
Inductive MetaValue := MStr (s : string) | MNum (n : nat).

Record PolicyResult := mkResult {
  allowed : bool;
  reason : string;
  metadata : list (string * MetaValue)
}.

(** The counters of one run.  A batch is an array, so it has fewer than
    [2^32] events and [++] on these numbers is exact. *)
Record ProcessingMetrics := mkMetrics {
  eventsProcessed : nat;
  policyViolations : nat;
  successCount : nat;
  errorCount : nat
}.

(** An entry of the [policies] array. *)
Module Policy.
Record t := mk {
  name : string;
  check : NormalizedEvent -> bool;
  reason : string
}.
End Policy.

Definition policies : list Policy.t :=
  [ Policy.mk "patient-mrn-required"
      (λ event, truthy (patientMRN (data event))
                && (0 <? String.length (patientMRN (data event))))
      "Patient MRN is required";
    Policy.mk "valid-message-type"
      (λ event, truthy (messageType (data event))
                && includes (messageType (data event)) "ADT")
      "Invalid message type - must be ADT";
    Policy.mk "facility-whitelist"
      (λ event, existsb (String.eqb (facilityId event))
                        ["FACILITY_001"; "FACILITY_002"])
      "Facility not in whitelist" ].

(** [for (const p of policies) if (!p.check()) return ...]: the policy at
    which the loop returns, if it does. *)
Fixpoint firstViolation (ps : list Policy.t) (event : NormalizedEvent)
  : option Policy.t :=
  match ps with
  | [] => None
  | p :: rest =>
      if negb (Policy.check p event) then Some p
      else firstViolation rest event
  end.

(** Returns the lines logged and the result. *)
Definition validateEventPolicy (event : NormalizedEvent)
  : list LogLine * PolicyResult :=
  let l0 := ["[Agent] Validating policy for event:"; id event] in
  match firstViolation policies event with
  | Some p =>
      ([l0; ["[Agent] Policy violation:"; Policy.name p; "-"; Policy.reason p]],
       {| allowed := false;
          reason := Policy.reason p;
          metadata := [("violatedPolicy", MStr (Policy.name p))] |})
  | None =>
      ([l0],
       {| allowed := true;
          reason := "All policies passed";
          metadata := [("policiesChecked", MNum (length policies))] |})
  end.

Definition typeName (t : EventType) : string :=
  match t with
  | admission => "admission"
  | discharge => "discharge"
  | transfer => "transfer"
  | update => "update"
  end.

(** [metrics.policyViolations++; metrics.errorCount++] *)
Definition countViolation (m : ProcessingMetrics) : ProcessingMetrics :=
  {| eventsProcessed := eventsProcessed m;
     policyViolations := S (policyViolations m);
     successCount := successCount m;
     errorCount := S (errorCount m) |}.

(** [metrics.successCount++] *)
Definition countSuccess (m : ProcessingMetrics) : ProcessingMetrics :=
  {| eventsProcessed := eventsProcessed m;
     policyViolations := policyViolations m;
     successCount := S (successCount m);
     errorCount := errorCount m |}.

(** [metrics.errorCount++] *)
Definition countError (m : ProcessingMetrics) : ProcessingMetrics :=
  {| eventsProcessed := eventsProcessed m;
     policyViolations := policyViolations m;
     successCount := successCount m;
     errorCount := S (errorCount m) |}.

(** [metrics.eventsProcessed++] *)
Definition countProcessed (m : ProcessingMetrics) : ProcessingMetrics :=
  {| eventsProcessed := S (eventsProcessed m);
     policyViolations := policyViolations m;
     successCount := successCount m;
     errorCount := errorCount m |}.

End Orchestrator.

(** ** The values that reach [processEvent]

  [asEvent] is a cast: [processEvent] receives whatever the queue item
  carried as its payload, or whatever [JSON.parse] made of the file.  These
  are the values that [JSON.parse] yields and that the normaliser builds: no
  functions, no accessors. *)

Module Json.

(** [Num]: the script only tests a number for being zero and for being
    positive, which an integer stands for (a fraction behaves as its
    sign).  [Obj]: the own properties; [Undefined] is what reading a
    missing property gives. *)
#[warnings="-register-all"]
Inductive t :=
| Undefined
| Null
| Bool (b : bool)
| Num (n : Z)
| Str (s : string)
| Arr (items : list t)
| Obj (props : gmap string t).

Definition nullish (v : t) : bool :=
  match v with Undefined | Null => true | _ => false end.

(** [!!v] *)
Definition truthy (v : t) : bool :=
  match v with
  | Undefined | Null => false
  | Bool b => b
  | Num n => negb (n =? 0)%Z
  | Str s => Js.truthy s
  | Arr _ | Obj _ => true
  end.

(** [v.name] on a [v] that is neither [undefined] nor [null], for the
    names the orchestrator reads ([id], [type], [data], [patientName],
    [given], [family], [patientMRN], [messageType], [facilityId],
    [length]): an own property of an object, the length of a string or an
    array, and [undefined] otherwise (no built-in prototype has a member
    of one of these names). *)
Definition field (v : t) (name : string) : t :=
  match v with
  | Obj props => default Undefined (props !! name)
  | Arr items =>
      if String.eqb name "length" then Num (Z.of_nat (length items)) else Undefined
  | Str s =>
      if String.eqb name "length" then Num (Z.of_nat (String.length s)) else Undefined
  | _ => Undefined
  end.

(** [v.name]: reading a property of [undefined] or [null] throws. *)
Definition get (v : t) (name : string) : Completion t :=
  if nullish v then Throw "TypeError" else Normal (field v name).

(** [v.includes(x)] for a string [x], on a truthy [v]: the substring test
    of a string, the membership test of an array; on anything else
    [v.includes] is not a function (an own property of that name holds
    data), and the call throws. *)
Definition callIncludes (v : t) (x : string) : Completion bool :=
  match v with
  | Str s => Normal (Js.includes s x)
  | Arr items =>
      Normal (existsb (λ item, match item with Str s => String.eqb s x | _ => false end)
                      items)
  | _ => Throw "TypeError"
  end.

End Json.

(** ** scripts/agent-orchestrator.ts: [validateEventPolicy],
       [processEvent] and the loop of [runOrchestrator] on the values that
       reach them

  On the object of a well-typed event this gate is the one of
  [Orchestrator] ([OrchestratorProps.validateEventPolicy_ofEvent]). *)

Module Agent.
Import Js Event Orchestrator Json.

(** An argument of a [log] or [console.error] call: a value, or the error
    object that a [catch] clause received. *)
Inductive Arg := Val (v : Json.t) | Caught (err : string).

(** One call of [log(...args)] or [console.error(...args)]: its arguments
    (the ISO time stamp that [log] prints first is left out). *)
Abbreviation Line := (list Arg).

(** What [processEvent] reads and writes: its [metrics] argument, the
    counters of metrics.ts, and the two output streams. *)
Record World := mkWorld {
  metrics : ProcessingMetrics;
  counters : Metrics.Heap;
  stdout : list Line;
  stderr : list Line
}.

Definition log (l : Line) (w : World) : World :=
  {| metrics := metrics w; counters := counters w;
     stdout := stdout w ++ [l]; stderr := stderr w |}.

Definition logs (ls : list Line) (w : World) : World :=
  {| metrics := metrics w; counters := counters w;
     stdout := stdout w ++ ls; stderr := stderr w |}.

Definition error (l : Line) (w : World) : World :=
  {| metrics := metrics w; counters := counters w;
     stdout := stdout w; stderr := stderr w ++ [l] |}.

Definition withMetrics (f : ProcessingMetrics -> ProcessingMetrics) (w : World)
  : World :=
  {| metrics := f (metrics w); counters := counters w;
     stdout := stdout w; stderr := stderr w |}.

(** How a call of [processEvent], or the loop over the batch, ends: it
    returns, or a value thrown outside the [try] block leaves it; either
    way with the world as it is by then. *)
Inductive Run :=
| Returned (w : World)
| Thrown (w : World) (err : string).

Definition world (r : Run) : World :=
  match r with Returned w => w | Thrown w _ => w end.

(** An entry of the [policies] array; a check may throw. *)
Module Check.
Record t := mk {
  name : string;
  check : Json.t -> Completion bool;
  reason : string
}.
End Check.

(** The object that the normaliser builds for an event, and that a
    well-typed [NormalizedEvent] is. *)
Definition ofEvent (e : NormalizedEvent) : Json.t :=
  let optional (name : string) (v : option string) (props : gmap string Json.t) :=
    match v with Some s => <[ name := Str s ]> props | None => props end in
  Obj (<[ "id" := Str (id e) ]>
      (<[ "type" := Str (typeName (type e)) ]>
      (<[ "patientId" := Str (patientId e) ]>
      (<[ "facilityId" := Str (facilityId e) ]>
      (<[ "timestamp" := Str (timestamp e) ]>
      (<[ "data" :=
            Obj (<[ "messageType" := Str (messageType (data e)) ]>
                (<[ "patientMRN" := Str (patientMRN (data e)) ]>
                (<[ "patientName" :=
                      Obj (<[ "family" := Str (family (patientName (data e))) ]>
                          (<[ "given" := Str (given (patientName (data e))) ]> ∅)) ]>
                (<[ "patientDOB" := Str (patientDOB (data e)) ]>
                (<[ "patientGender" := Str (patientGender (data e)) ]>
                (optional "location" (location (data e))
                (optional "attendingPhysician" (attendingPhysician (data e)) ∅))))))) ]>
      (<[ "metadata" :=
            Obj (<[ "originalHL7" := Str (originalHL7 (Event.metadata e)) ]>
                (<[ "processedAt" := Str (processedAt (Event.metadata e)) ]>
                (<[ "source" := Str (source (Event.metadata e)) ]> ∅))) ]>
       ∅))))))).

Section WithConversion.

(** [v > 0] for a [v] that the comparison first converts through a string
    (a string, an array, an object): the outcome of the language's
    ToPrimitive and StringToNumber, which throws on an object whose own
    [valueOf] and [toString] properties hold data. *)
Variable convertedAboveZero : Json.t -> Completion bool.

(** [v > 0] *)
Definition aboveZero (v : Json.t) : Completion bool :=
  match v with
  | Undefined | Null => Normal false
  | Bool b => Normal b
  | Num n => Normal (0 <? n)%Z
  | Str _ | Arr _ | Obj _ => convertedAboveZero v
  end.

Definition policies : list Check.t :=
  [ Check.mk "patient-mrn-required"
      (λ event,
         match get event "data" with
         | Throw err => Throw err
         | Normal data =>
             match get data "patientMRN" with
             | Throw err => Throw err
             | Normal mrn =>
                 if truthy mrn then aboveZero (field mrn "length") else Normal false
             end
         end)
      "Patient MRN is required";
    Check.mk "valid-message-type"
      (λ event,
         match get event "data" with
         | Throw err => Throw err
         | Normal data =>
             match get data "messageType" with
             | Throw err => Throw err
             | Normal messageType =>
                 if truthy messageType then callIncludes messageType "ADT"
                 else Normal false
             end
         end)
      "Invalid message type - must be ADT";
    Check.mk "facility-whitelist"
      (λ event,
         match get event "facilityId" with
         | Throw err => Throw err
         | Normal (Str facility) =>
             Normal (existsb (String.eqb facility) ["FACILITY_001"; "FACILITY_002"])
         | Normal _ => Normal false
         end)
      "Facility not in whitelist" ].

(** [for (const p of policies) if (!p.check()) return ...]: the policy at
    which the loop returns, if it does; a check that throws ends the
    loop. *)
Fixpoint firstViolation (ps : list Check.t) (event : Json.t)
  : Completion (option Check.t) :=
  match ps with
  | [] => Normal None
  | p :: rest =>
      match Check.check p event with
      | Throw err => Throw err
      | Normal passed => if negb passed then Normal (Some p)
                         else firstViolation rest event
      end
  end.

(** Returns the lines logged and how the call ends. *)
Definition validateEventPolicy (event : Json.t)
  : list Line * Completion PolicyResult :=
  match get event "id" with
  | Throw err => ([], Throw err)
  | Normal id =>
      let l0 := [Val (Str "[Agent] Validating policy for event:"); Val id] in
      match firstViolation policies event with
      | Throw err => ([l0], Throw err)
      | Normal (Some p) =>
          ([l0; [Val (Str "[Agent] Policy violation:"); Val (Str (Check.name p));
                 Val (Str "-"); Val (Str (Check.reason p))]],
           Normal {| allowed := false;
                     reason := Check.reason p;
                     metadata := [("violatedPolicy", MStr (Check.name p))] |})
      | Normal None =>
          ([l0],
           Normal {| allowed := true;
                     reason := "All policies passed";
                     metadata := [("policiesChecked", MNum (length policies))] |})
      end
  end.

(** The [try], [catch] and [finally] blocks of [processEvent]. *)
Definition tryBlock (event : Json.t) (w : World) : World :=
  let '(vlog, completion) := validateEventPolicy event in
  let w := logs vlog w in
  let w :=
    match completion with
    | Normal policy =>
        if negb (allowed policy) then
          withMetrics countViolation
            (log [Val (Str "[Agent] Event rejected:"); Val (Str (reason policy))] w)
        else
          log [Val (Str "[Agent] Event processed successfully")]
            (withMetrics countSuccess
               (logs [ [Val (Str "[Agent] → Writing to database (simulated)")];
                       [Val (Str "[Agent] → Triggering downstream workflows (simulated)")];
                       [Val (Str "[Agent] → Updating patient index (simulated)")] ] w))
    | Throw err =>
        (* catch *)
        withMetrics countError
          (error [Val (Str "[Agent] Error processing event:"); Caught err] w)
    end in
  (* finally *)
  let w := withMetrics countProcessed w in
  {| metrics := metrics w; counters := Metrics.inc "processed" (counters w);
     stdout := stdout w; stderr := stderr w |}.

(** The three [log] calls come before the [try]: what their arguments
    throw leaves [processEvent]. *)
Definition processEvent (event : Json.t) (w : World) : Run :=
  match get event "id" with
  | Throw err => Thrown w err
  | Normal id =>
      let w := log [Val (Str (String (ascii_of_nat 10) "[Agent] Processing event:"));
                    Val id] w in
      match get event "type" with
      | Throw err => Thrown w err
      | Normal type =>
          let w := log [Val (Str "[Agent] Event type:"); Val type] w in
          match get event "data" with
          | Throw err => Thrown w err
          | Normal data =>
              match get data "patientName" with
              | Throw err => Thrown w err
              | Normal name =>
                  match get name "given" with
                  | Throw err => Thrown w err
                  | Normal given =>
                      match get name "family" with
                      | Throw err => Thrown w err
                      | Normal family =>
                          let w := log [Val (Str "[Agent] Patient:"); Val given;
                                        Val family] w in
                          Returned (tryBlock event w)
                      end
                  end
              end
          end
      end
  end.

(** [for (const ev of events) processEvent(ev, metrics)] *)
Fixpoint processAll (events : list Json.t) (w : World) : Run :=
  match events with
  | [] => Returned w
  | ev :: rest =>
      match processEvent ev w with
      | Returned w' => processAll rest w'
      | Thrown w' err => Thrown w' err
      end
  end.

End WithConversion.

(** The state [runOrchestrator] starts its loop in. *)
Definition start (h : Metrics.Heap) : World :=
  {| metrics := mkMetrics 0 0 0 0; counters := h; stdout := []; stderr := [] |}.

End Agent.

(** ** evals/eval.ts *)

Module Eval.
Import Js.

Record Task := mkTask { name : string; rule : string; expect : bool }.

(** Case folding of the [i] flag.  The pattern is ASCII, and a code unit
    outside ASCII never folds to an ASCII one, so folding [a-z] to [A-Z]
    decides every comparison with a pattern character. *)
Definition canonicalize (c : ascii) : ascii :=
  let n := nat_of_ascii c in
  if (97 <=? n) && (n <=? 122) then ascii_of_nat (n - 32) else c.

(** Matching a literal prefix under the [i] flag; returns the rest of the
    input. *)
Fixpoint matchLiteral (pat s : string) : option string :=
  match pat with
  | EmptyString => Some s
  | String p pat' =>
      match s with
      | EmptyString => None
      | String c s' =>
          if Ascii.eqb (canonicalize p) (canonicalize c)
          then matchLiteral pat' s' else None
      end
  end.

(** [.] matches every code unit but a line terminator.  The line
    terminators are U+000A, U+000D, U+2028 and U+2029; the first two are
    the ones among the 8-bit code units of a [string]. *)
Definition isLineTerminator (c : ascii) : bool :=
  let n := nat_of_ascii c in (n =? 10) || (n =? 13).

Fixpoint allDot (s : string) : bool :=
  match s with
  | EmptyString => true
  | String c s' => negb (isLineTerminator c) && allDot s'
  end.

(** [rule.match(/^contains:(.+)$/i)]: [Some m1] holds the capture group,
    [None] is [null].  Without the [m] flag [^] and [$] are the two ends
    of the input, so [(.+)] has to take all that follows the prefix. *)
Definition matchContains (rule : string) : option string :=
  match matchLiteral "contains:" rule with
  | Some rest => if truthy rest && allDot rest then Some rest else None
  | None => None
  end.

Definition evaluateRule (rule payload : string) : bool :=
  match matchContains rule with
  | None => false
  | Some needle => includes payload needle
  end.

Definition boolName (b : bool) : string := if b then "true" else "false".

(** The loop state: [pass], [fail] and the lines logged. *)
Record Tally := mkTally { pass : nat; fail : nat; out : list string }.

(** [actual === t.expect] *)
Definition ok (payload : string) (t : Task) : bool :=
  Bool.eqb (evaluateRule (rule t) payload) (expect t).

(** One iteration of [for (const t of doc.tasks)]. *)
Definition iteration (payload : string) (acc : Tally) (t : Task) : Tally :=
  let actual := evaluateRule (rule t) payload in
  let ok := Bool.eqb actual (expect t) in
  let line := "Task: " +:+ name t +:+ " (rule=" +:+ rule t +:+ ", expect="
              +:+ boolName (expect t) +:+ ") => "
              +:+ (if ok then "PASS" else "FAIL") in
  if ok then {| pass := S (pass acc); fail := fail acc; out := out acc ++ [line] |}
  else {| pass := pass acc; fail := S (fail acc); out := out acc ++ [line] |}.

Record Report := mkReport {
  PASS : nat;
  FAIL : nat;
  rollback : bool;
  lines : list string
}.

(** The body of the script, for the tasks of tasks.yaml and the payload of
    the sample file. *)
Definition main (tasks : list Task) (payload : string) : Report :=
  let acc := fold_left (iteration payload) tasks {| pass := 0; fail := 0; out := [] |} in
  let rollback := 0 <? fail acc in
  {| PASS := pass acc;
     FAIL := fail acc;
     rollback := rollback;
     lines := out acc ++
       ["Summary: PASS=" +:+ num_to_string (Z.of_nat (pass acc))
        +:+ " FAIL=" +:+ num_to_string (Z.of_nat (fail acc))
        +:+ " rollback=" +:+ boolName rollback] |}.

End Eval.

(** ** scripts/hl7-ingest.ts, the stub script: its queue and its
       duplicate check *)

Module Hl7IngestStubQueue.
Import Js Event Hl7IngestStub.

(** The module-level [const eventQueue: NormalizedEvent[] = []] and the two
    console streams. *)
Record State := mkState {
  eventQueue : list NormalizedEvent;
  stdout : list LogLine;
  stderr : list LogLine
}.

Definition init : State := {| eventQueue := []; stdout := []; stderr := [] |}.

Definition log (line : LogLine) (st : State) : State :=
  {| eventQueue := eventQueue st; stdout := stdout st ++ [line]; stderr := stderr st |}.

Definition error (line : LogLine) (st : State) : State :=
  {| eventQueue := eventQueue st; stdout := stdout st; stderr := stderr st ++ [line] |}.

Definition enqueueEvent (event : NormalizedEvent) (st : State) : State :=
  let st := {| eventQueue := eventQueue st ++ [event];
               stdout := stdout st; stderr := stderr st |} in
  let st := log ["[HL7 Ingest] Event queued: " +:+ id event +:+ " ("
                 +:+ Orchestrator.typeName (type event) +:+ ")"] st in
  let st := log ["[HL7 Ingest] Patient: " +:+ given (patientName (data event))
                 +:+ " " +:+ family (patientName (data event))] st in
  log ["[HL7 Ingest] Queue length: "
       +:+ num_to_string (Z.of_nat (length (eventQueue st)))] st.

Section WithDate.

(** [new Date(s).getTime()]: the milliseconds since the epoch that the time
    stamp [s] denotes; [None] is the [NaN] of a string that is not a date. *)
Variable getTime : string -> option Z.

(** [Math.abs(new Date(a).getTime() - new Date(b).getTime()) < 60000]; a
    comparison with [NaN] is false. *)
Definition withinWindow (a b : string) : bool :=
  match getTime a, getTime b with
  | Some x, Some y => (Z.abs (x - y) <? 60000)%Z
  | _, _ => false
  end.

(** The predicate of [eventQueue.some(...)]. *)
Definition duplicates (normalizedEvent event : NormalizedEvent) : bool :=
  String.eqb (patientMRN (data event)) (patientMRN (data normalizedEvent))
  && String.eqb (messageType (data event)) (messageType (data normalizedEvent))
  && withinWindow (timestamp event) (timestamp normalizedEvent).

Definition processHL7Message (run : Run) (hl7Message : string) (st : State) : State :=
  let st := log ["[HL7 Ingest] Processing HL7 message..."] st in
  (* try *)
  match parseHL7Message run hl7Message with
  | Some normalizedEvent =>
      let isDuplicate := existsb (duplicates normalizedEvent) (eventQueue st) in
      if isDuplicate then
        log ["[HL7 Ingest] Duplicate message detected, skipping..."] st
      else
        log ["[HL7 Ingest] HL7 message processed successfully"]
          (enqueueEvent normalizedEvent st)
  | None =>
      (* catch *)
      error ["[HL7 Ingest] Error processing HL7 message:"; "TypeError"] st
  end.

End WithDate.

End Hl7IngestStubQueue.

(** ** The ESM ingest script: [main] *)

Module Hl7IngestMain.
Import Js Event Hl7Ingest.

(** The two files of the script.  [sample] is the text of
    samples/adt_oru.hl7 when the file exists; [normalized] is what
    samples/normalized.json holds, the JSON text standing for the event it
    encodes. *)
Record Files := mkFiles {
  sample : option string;
  normalized : option NormalizedEvent
}.

Record World := mkWorld {
  files : Files;
  queue : Queue.State NormalizedEvent;
  stdout : list LogLine
}.

(** How the script ends: [process.exit(1)], or the end of [main] with the
    result of [enqueue]. *)
Inductive Ending := Exit (code : Z) | Done (ok : bool).

Definition log (line : LogLine) (w : World) : World :=
  {| files := files w; queue := queue w; stdout := stdout w ++ [line] |}.

Definition boolName (b : bool) : string := if b then "true" else "false".

Section WithPaths.

(** [path.resolve(__dirname, ...)] of the two files. *)
Variables SAMPLE_PATH OUT_PATH : string.

Definition main (run : Run) (w : World) : Ending * World :=
  match sample (files w) with
  | None =>
      (Exit 1, log ["Missing sample HL7 file:"; SAMPLE_PATH] w)
  | Some hl7 =>
      let w := log ["[HL7 Ingest] Processing HL7 message…"] w in
      let normalized := parseHL7Message run hl7 in
      let item := Queue.mkItem (id normalized) "HL7v2" normalized in
      let '(ok, q') := Queue.enqueue item (queue w) in
      let w := {| files := files w; queue := q'; stdout := stdout w |} in
      let w := log ["[HL7 Ingest] Enqueued:"; id normalized; "ok:"; boolName ok] w in
      let w := {| files := {| sample := sample (files w); normalized := Some normalized |};
                  queue := queue w; stdout := stdout w |} in
      let w := log ["[HL7 Ingest] Wrote canonical artifact:"; OUT_PATH] w in
      let w := log ["[HL7 Ingest] Done. You can now run: npm run agent"] w in
      (Done ok, w)
  end.

End WithPaths.

End Hl7IngestMain.

(** ** scripts/agent-orchestrator.ts: [gatherEvents] *)

Module Gather.
Import Js Event.

Section WithPayload.

(** [payload: unknown]: the queue hands out values of any kind.
    [truthyPayload] is the test [if (item.payload)], [asEvent] the unchecked
    cast of the script. *)
Context {Payload : Type}.
Variable truthyPayload : Payload -> bool.
Variable asEvent : Payload -> NormalizedEvent.
Variable CANONICAL_PATH : string.

(** samples/normalized.json as [gatherEvents] finds it: not there, there
    but failing [JSON.parse(fs.readFileSync(...))], or parsed. *)
Inductive CanonicalFile :=
| Missing
| Unreadable (err : string)
| Parsed (raw : Payload).

Record Gathered := mkGathered {
  collected : list NormalizedEvent;
  queue : Queue.State Payload;
  stdout : list LogLine;
  stderr : list LogLine
}.

(** [while (size() > 0) { ... }].  The loop has no bound of its own; [fuel]
    bounds the iterations of the model, and [None] is a loop that has not
    ended within it. *)
Fixpoint drain (fuel : nat) (st : Queue.State Payload)
    (collected : list NormalizedEvent)
  : option (list NormalizedEvent * Queue.State Payload) :=
  if 0 <? Queue.size st then
    match fuel with
    | O => None
    | S fuel' =>
        let '(item, st') := Queue.dequeue st in
        match item with
        | None => Some (collected, st')      (* if (!item) break *)
        | Some item =>
            drain fuel' st'
              (if truthyPayload (Queue.payload item)
               then collected ++ [asEvent (Queue.payload item)]
               else collected)
        end
    end
  else Some (collected, st).

Definition gatherEvents (fuel : nat) (file : CanonicalFile) (st : Queue.State Payload)
  : option Gathered :=
  if 0 <? Queue.size st then
    let line := ["[Agent] Draining in-memory queue (size="
                 +:+ num_to_string (Z.of_nat (Queue.size st)) +:+ ")"] in
    match drain fuel st [] with
    | Some (collected, st') =>
        Some {| collected := collected; queue := st'; stdout := [line]; stderr := [] |}
    | None => None
    end
  else
    match file with
    | Parsed raw =>
        Some {| collected := [asEvent raw]; queue := st;
                stdout := [["[Agent] Loaded canonical event from file:"; CANONICAL_PATH]];
                stderr := [] |}
    | Unreadable err =>
        Some {| collected := []; queue := st; stdout := [];
                stderr := [["[Agent] Failed to read canonical event:"; err]] |}
    | Missing =>
        Some {| collected := []; queue := st;
                stdout := [["[Agent] No events in queue and no canonical file found. Run `npm run hl7` first."]];
                stderr := [] |}
    end.

End WithPayload.
Arguments CanonicalFile : clear implicits.
Arguments Gathered : clear implicits.

End Gather.

(** * Vocabulary of the statements, and sample inputs *)

Module QueueSpec.
Import Queue.

Section WithPayload.
Context {Payload : Type}.

(** A client of the module is a sequence of calls. *)
Inductive Call := CallEnqueue (item : QueueItem Payload) | CallDequeue | CallSize.

Definition step (st : State Payload) (c : Call) : State Payload :=
  match c with
  | CallEnqueue item => snd (enqueue item st)
  | CallDequeue => snd (dequeue st)
  | CallSize => st
  end.

Definition run (calls : list Call) (st : State Payload) : State Payload :=
  fold_left step calls st.

(** [enqueueAll items st]: the results of enqueueing [items] in order. *)
Fixpoint enqueueAll (items : list (QueueItem Payload)) (st : State Payload) : list bool * State Payload :=
  match items with
  | [] => ([], st)
  | it :: rest =>
      let '(ok, st1) := enqueue it st in
      let '(oks, st2) := enqueueAll rest st1 in
      (ok :: oks, st2)
  end.

(** [dequeueN n st]: the results of [n] successive dequeues. *)
Fixpoint dequeueN (n : nat) (st : State Payload) : list (option (QueueItem Payload)) * State Payload :=
  match n with
  | O => ([], st)
  | S n' =>
      let '(r, st1) := dequeue st in
      let '(rs, st2) := dequeueN n' st1 in
      (r :: rs, st2)
  end.

End WithPayload.
Arguments Call : clear implicits.

Definition item_a : QueueItem unit := mkItem "a" "HL7v2" ().
Definition item_b : QueueItem unit := mkItem "b" "HL7v2" ().
Definition item_c : QueueItem unit := mkItem "c" "HL7v2" ().

End QueueSpec.

Module MetricsSpec.
Import Metrics.

(** The own property [key] of the object behind a reference: what a
    snapshot holds under [key]. *)
Definition read (h : Heap) (r : Ref) (key : string) : option Value :=
  h !! r ≫= λ o, o !! key.

Inductive Call := CallInc (key : string) | CallSnapshot.

Definition step (h : Heap) (c : Call) : Heap :=
  match c with
  | CallInc key => inc key h
  | CallSnapshot => snd (snapshot h)
  end.

Definition run (calls : list Call) (h : Heap) : Heap := fold_left step calls h.

(** A key that names no member of [Object.prototype]. *)
Definition ordinary (key : string) : Prop :=
  key ∉ "__proto__" :: methodsOfObjectPrototype.

(** What is held under a key after [n] increments: nothing when there was
    none, and then the number [n], which stops growing at [2^53]. *)
Definition reported (n : nat) : option Value :=
  if n is O then None else Some (VNum (Z.min (Z.of_nat n) (2 ^ 53))).

(** Calls keep the heap non-empty and keep the objects already allocated
    beside [counters] as they are. *)
Definition extends (h h' : Heap) : Prop :=
  0 < length h'
  ∧ length h ≤ length h'
  ∧ (∀ r, r ≠ countersRef → r < length h → h' !! r = h !! r).

End MetricsSpec.

Module PolicySpec.
Import Js Event Orchestrator.

Definition deny (p : Policy.t) : PolicyResult :=
  {| allowed := false;
     reason := Policy.reason p;
     metadata := [("violatedPolicy", MStr (Policy.name p))] |}.

Definition allow (n : nat) : PolicyResult :=
  {| allowed := true;
     reason := "All policies passed";
     metadata := [("policiesChecked", MNum n)] |}.

Definition passes (event : NormalizedEvent) (p : Policy.t) : Prop :=
  Policy.check p event = true.

(** An event that fails all three predicates. *)
Definition badEvent : NormalizedEvent :=
  {| id := "evt_1";
     type := update;
     patientId := "unknown";
     facilityId := "FACILITY_009";
     timestamp := "2023-08-13T11:08:00.000Z";
     data := {| messageType := "ORU^R01"; patientMRN := "";
                patientName := {| family := ""; given := "" |};
                patientDOB := ""; patientGender := "";
                location := Some ""; attendingPhysician := Some "" |};
     Event.metadata := {| originalHL7 := ""; processedAt := "2023-08-13T11:08:00.000Z";
                    source := "hl7-ingest" |} |}.

(** The sample event of the orchestrator: it passes all three. *)
Definition goodEvent : NormalizedEvent :=
  {| id := "evt_12345_sample1";
     type := admission;
     patientId := "MRN123456";
     facilityId := "FACILITY_001";
     timestamp := "2023-08-13T11:08:00.000Z";
     data := {| messageType := "ADT^A01"; patientMRN := "MRN123456";
                patientName := {| family := "DOE"; given := "JOHN" |};
                patientDOB := "19800101"; patientGender := "M";
                location := Some "ICU^101^01";
                attendingPhysician := Some "12345^SMITH^JANE^M^^^DR" |};
     Event.metadata := {| originalHL7 := "MSH|^~\&|..."; processedAt := "2023-08-13T11:08:00.000Z";
                    source := "hl7-ingest" |} |}.

End PolicySpec.

Module AgentSpec.
Import Js Event Orchestrator Json Agent.

(** The reads of the three [log] calls that precede the [try] succeed:
    none of [event], [event.data] and [event.data.patientName] is
    [undefined] or [null]. *)
Definition loggable (event : Json.t) : bool :=
  negb (nullish event)
  && negb (nullish (field event "data"))
  && negb (nullish (field (field event "data") "patientName")).

(** The events that the loop gets to: those before the first one that is
    not loggable. *)
Fixpoint reached (events : list Json.t) : list Json.t :=
  match events with
  | [] => []
  | ev :: rest => if loggable ev then ev :: reached rest else []
  end.

(** How the policy gate ends for an event. *)
Inductive Outcome :=
| Rejected (why : string)
| Succeeded
| Failed (err : string).

Definition tick (b : bool) : nat := if b then 1 else 0.

(** The line that stands for the database write of an admitted event. *)
Definition isDbLine (l : Line) : bool :=
  match l with
  | [Val (Str s)] => String.eqb s "[Agent] → Writing to database (simulated)"
  | _ => false
  end.

(** How often that line was logged. *)
Definition dbWrites (out : list Line) : nat :=
  length (filter (λ l, isDbLine l = true) out).

Section WithConversion.
Variable convertedAboveZero : Json.t -> Completion bool.

Definition outcome (event : Json.t) : Outcome :=
  match snd (validateEventPolicy convertedAboveZero event) with
  | Normal policy => if negb (allowed policy) then Rejected (reason policy) else Succeeded
  | Throw err => Failed err
  end.

(** The gate denies the event, admits it, or throws. *)
Definition rejected (event : Json.t) : bool :=
  match outcome event with Rejected _ => true | _ => false end.
Definition succeeded (event : Json.t) : bool :=
  match outcome event with Succeeded => true | _ => false end.
Definition failed (event : Json.t) : bool :=
  match outcome event with Failed _ => true | _ => false end.

(** [validateEventPolicy] returns a result with [allowed: true]. *)
Definition admitted (event : Json.t) : bool :=
  match snd (validateEventPolicy convertedAboveZero event) with
  | Normal policy => allowed policy
  | Throw _ => false
  end.

(** The line [console.error] writes for an event on which the gate
    threw. *)
Definition errorLines (event : Json.t) : list Line :=
  match outcome event with
  | Failed err => [[Val (Str "[Agent] Error processing event:"); Caught err]]
  | _ => []
  end.

End WithConversion.

(** A conversion that is never called on the sample payloads. *)
Definition noConversion (v : Json.t) : Completion bool := Normal false.

(** A payload with the patient name that the log lines read, and a number
    where the message type should be: [(5).includes] is not a function. *)
Definition numericMessageType : Json.t :=
  Obj (<[ "id" := Str "evt_3" ]>
      (<[ "facilityId" := Str "FACILITY_001" ]>
      (<[ "data" :=
            Obj (<[ "messageType" := Num 5 ]>
                (<[ "patientMRN" := Str "MRN123456" ]>
                (<[ "patientName" :=
                      Obj (<[ "family" := Str "DOE" ]> (<[ "given" := Str "JOHN" ]> ∅)) ]>
                 ∅))) ]>
       ∅))).

(** A payload without [data]. *)
Definition noData : Json.t :=
  Obj (<[ "id" := Str "evt_4" ]> (<[ "type" := Str "admission" ]> ∅)).

End AgentSpec.

Module NormalizerSpec.
Import Js Event.

Module Stub := Hl7IngestStub.
Module Esm := Hl7Ingest.

(** No line of the message starts with [tag]. *)
Definition absent (tag : string) (lines : list string) : Prop :=
  find (λ line, startsWith line tag) lines = None.

(** A discharge message (ADT^A03). *)
Definition dischargeMessage : string :=
  "MSH|^~\&|SENDING_APP|SENDING_FACILITY|RECEIVING_APP|RECEIVING_FACILITY|20230813110800||ADT^A03|MSG123457|P|2.5"
  +:+ String Stub.LF "PID|1||MRN123456^^^HOSPITAL^MR||DOE^JOHN^||19800101|M".

Definition stubRun1 : Stub.Run :=
  Stub.mkRun 1691924880000 "k3x9q2m1a" "2023-08-13T11:08:00.000Z" "2023-08-13T11:08:00.000Z".
Definition stubRun2 : Stub.Run :=
  Stub.mkRun 1691924881000 "b7w0c4z8e" "2023-08-13T11:08:01.000Z" "2023-08-13T11:08:01.000Z".
Definition esmRun1 : Esm.Run :=
  Esm.mkRun 1691924880000 "2023-08-13T11:08:00.000Z" "2023-08-13T11:08:00.000Z".
Definition esmRun2 : Esm.Run :=
  Esm.mkRun 1691924881000 "2023-08-13T11:08:01.000Z" "2023-08-13T11:08:01.000Z".

(** A message with an MSH line only. *)
Definition mshOnly : string :=
  "MSH|^~\&|SENDING_APP|SENDING_FACILITY|RECEIVING_APP|RECEIVING_FACILITY|20230813110800||ADT^A01|MSG123456|P|2.5".

End NormalizerSpec.

Module EvalSpec.
Import Js Eval.

(** Upper-casing a string, code unit by code unit. *)
Fixpoint upper (s : string) : string :=
  match s with
  | EmptyString => EmptyString
  | String c s' => String (canonicalize c) (upper s')
  end.

(** A rule of the shape [contains:<non-empty suffix>], the prefix in any
    letter case. *)
Definition wellFormed (rule : string) : Prop :=
  ∃ prefix suffix, rule = prefix +:+ suffix ∧ upper prefix = "CONTAINS:" ∧ suffix ≠ "".

(** A task passes when the rule's result is the expected one. *)
Definition agrees (payload : string) (t : Task) : Prop :=
  evaluateRule (rule t) payload = expect t.

#[global] Instance agrees_dec payload t : Decision (agrees payload t).
Proof. unfold agrees. apply _. Defined.

End EvalSpec.

(** ** Vocabulary of the further properties *)

Module HistorySpec.
Import Queue QueueSpec.

Section WithPayload.
Context {Payload : Type}.

(** The items that [enqueue] accepted in the course of [calls], oldest
    first. *)
Fixpoint accepted (calls : list (Call Payload)) (st : State Payload)
  : list (QueueItem Payload) :=
  match calls with
  | [] => []
  | c :: rest =>
      match c with
      | CallEnqueue item => if fst (enqueue item st) then [item] else []
      | _ => []
      end ++ accepted rest (step st c)
  end.

(** The items that [dequeue] handed out in the course of [calls], oldest
    first. *)
Fixpoint handedOut (calls : list (Call Payload)) (st : State Payload)
  : list (QueueItem Payload) :=
  match calls with
  | [] => []
  | c :: rest =>
      match c with
      | CallDequeue => match fst (dequeue st) with Some x => [x] | None => [] end
      | _ => []
      end ++ handedOut rest (step st c)
  end.

(** Waiting items have pairwise distinct ids, all of them in the dedup
    record. *)
Definition consistent (st : State Payload) : Prop :=
  NoDup (id <$> q st) ∧ ∀ it, it ∈ q st → id it ∈ seen st.

End WithPayload.

(** How often [calls] increments [key]. *)
Fixpoint increments (key : string) (calls : list MetricsSpec.Call) : nat :=
  match calls with
  | [] => 0
  | MetricsSpec.CallInc k :: rest =>
      (if String.eqb k key then 1 else 0) + increments key rest
  | MetricsSpec.CallSnapshot :: rest => increments key rest
  end.

End HistorySpec.

Module PipelineSpec.
Import Js Event.

(** The facility is one of the two of the whitelist. *)
Definition whitelisted (facility : string) : bool :=
  String.eqb facility "FACILITY_001" || String.eqb facility "FACILITY_002".

(** [sub] occurs in [s]. *)
Definition occursIn (sub s : string) : Prop :=
  ∃ before after, s = before +:+ sub +:+ after.

(** A clock that reads the two time stamps of the sample runs, one second
    apart, and a third one two minutes later. *)
Definition sampleGetTime (s : string) : option Z :=
  if String.eqb s "2023-08-13T11:08:00.000Z" then Some 1691924880000%Z
  else if String.eqb s "2023-08-13T11:08:01.000Z" then Some 1691924881000%Z
  else if String.eqb s "2023-08-13T11:10:00.000Z" then Some 1691925000000%Z
  else None.

Definition stubRun3 : Hl7IngestStub.Run :=
  Hl7IngestStub.mkRun 1691925000000 "q1w2e3r4t" "2023-08-13T11:10:00.000Z"
                      "2023-08-13T11:10:00.000Z".

(** [lines.join(sep)] *)
Fixpoint joinLines (sep : string) (lines : list string) : string :=
  match lines with
  | [] => ""
  | [l] => l
  | l :: rest => l +:+ sep +:+ joinLines sep rest
  end.

Definition LFs : string := String Hl7Ingest.LF "".
Definition CRLF : string := String Hl7Ingest.CR (String Hl7Ingest.LF "").

(** A line without a carriage return or a line feed in it. *)
Fixpoint plain (line : string) : bool :=
  match line with
  | EmptyString => true
  | String c rest =>
      negb (Ascii.eqb c Hl7Ingest.LF) && negb (Ascii.eqb c Hl7Ingest.CR) && plain rest
  end.

(** The first code unit is there and is not white space. *)
Definition startsClean (s : string) : bool :=
  match s with
  | EmptyString => false
  | String c _ => negb (Hl7Ingest.isWhite c)
  end.

(** The last code unit is there and is not white space. *)
Fixpoint endsClean (s : string) : bool :=
  match s with
  | EmptyString => false
  | String c EmptyString => negb (Hl7Ingest.isWhite c)
  | String _ rest => endsClean rest
  end.

(** The lines of a message as a sender writes them: no line break inside a
    line, the first line starting and the last line ending with something
    to read. *)
Definition wellShaped (lines : list string) : Prop :=
  Forall (λ l, plain l = true) lines
  ∧ (∃ first rest, lines = first :: rest ∧ startsClean first = true)
  ∧ (∃ front final, lines = front ++ [final] ∧ endsClean final = true).

(** Two events that differ at most in [metadata.originalHL7]. *)
Definition sameButOriginal (e1 e2 : NormalizedEvent) : Prop :=
  id e1 = id e2 ∧ type e1 = type e2 ∧ patientId e1 = patientId e2
  ∧ facilityId e1 = facilityId e2 ∧ timestamp e1 = timestamp e2
  ∧ data e1 = data e2
  ∧ processedAt (metadata e1) = processedAt (metadata e2)
  ∧ source (metadata e1) = source (metadata e2).

(** The queue item that the ESM ingest script builds for an event. *)
Definition itemOf (e : NormalizedEvent) : Queue.QueueItem NormalizedEvent :=
  Queue.mkItem (id e) "HL7v2" e.

(** Events as payloads: an object is truthy, and the cast does nothing. *)
Definition objectTruthy (e : NormalizedEvent) : bool := true.
Definition castEvent (e : NormalizedEvent) : NormalizedEvent := e.

(** A patient update (A08) sent with the message structure [ADT_A01]. *)
Definition updateWithA01Structure : string :=
  "MSH|^~\&|SENDING_APP|SENDING_FACILITY|FACILITY_001|RECEIVING_FACILITY|20230813110800||ADT^A08^ADT_A01|MSG123458|P|2.5".

(** A message without a control id (MSH-10). *)
Definition noControlId : string :=
  "MSH|^~\&|SENDING_APP|SENDING_FACILITY|FACILITY_001|RECEIVING_FACILITY|20230813110800||ADT^A01"
  +:+ String Hl7Ingest.LF "PID|1||MRN123456".

End PipelineSpec.

Module FieldsSpec.
Import Js Event PipelineSpec.

(** The code unit [c] does not occur in [s]. *)
Fixpoint lacks (c : ascii) (s : string) : bool :=
  match s with
  | EmptyString => true
  | String d rest => negb (Ascii.eqb d c) && lacks c rest
  end.

(** A segment written out: its fields joined by [|]. *)
Definition joinFields (fields : list string) : string := joinLines "|" fields.

(** Segments as a sender has them: every segment has at least one field,
    and no field contains the field separator. *)
Definition fieldsOk (segments : list (list string)) : Prop :=
  Forall (λ fields, fields ≠ [] ∧ Forall (λ f, lacks "|" f = true) fields) segments.

(** The fields of the first segment whose text starts with [tag]; [['']]
    when there is none, as [''.split('|')] gives. *)
Definition segmentOf (tag : string) (segments : list (list string)) : list string :=
  default [""] (find (λ fields, startsWith (joinFields fields) tag) segments).

End FieldsSpec.

(** * Properties *)

(** ** The queue: idempotent enqueue and FIFO order *)

Module QueueProps.
Import Queue QueueSpec.

Section WithPayload.
Context {Payload : Type}.
Implicit Types (st : State Payload) (item : QueueItem Payload).
Implicit Types (calls : list (Call Payload)) (items : list (QueueItem Payload)).

Lemma enqueue_seen item st : id item ∈ seen (snd (enqueue item st)).
Proof.
  unfold enqueue. destruct (decide (id item ∈ seen st)); simpl; set_solver.
Qed.

Lemma enqueue_true_fresh item st :
  fst (enqueue item st) = true ↔ id item ∉ seen st.
Proof.
  unfold enqueue. destruct (decide (id item ∈ seen st)); simpl; split; intros; done.
Qed.

Lemma enqueue_dup item st :
  id item ∈ seen st → enqueue item st = (false, st).
Proof. intros Hin. unfold enqueue. rewrite decide_True; done. Qed.

Lemma enqueue_fresh item st :
  id item ∉ seen st →
  enqueue item st = (true, {| seen := {[ id item ]} ∪ seen st; q := q st ++ [item] |}).
Proof. intros Hout. unfold enqueue. rewrite decide_False; done. Qed.

(** The dedup record only grows: no call removes an id from [seen]. *)
Lemma step_seen_mono st (c : Call Payload) : seen st ⊆ seen (step st c).
Proof.
  destruct c as [item | | ]; simpl.
  - unfold enqueue. destruct (decide (id item ∈ seen st)); simpl; set_solver.
  - unfold dequeue. destruct (q st); simpl; set_solver.
  - set_solver.
Qed.

Lemma run_seen_mono calls st : seen st ⊆ seen (run calls st).
Proof.
  revert st. induction calls as [| c calls IH]; intros st; simpl.
  - set_solver.
  - etrans; [apply (step_seen_mono st c) | apply IH].
Qed.

(** Dequeue never touches the dedup record. *)
Lemma dequeue_seen st : seen (snd (dequeue st)) = seen st.
Proof. unfold dequeue. destruct (q st); reflexivity. Qed.

Lemma enqueueAll_fresh items : ∀ st,
  NoDup (id <$> items) →
  (∀ it, it ∈ items → id it ∉ seen st) →
  enqueueAll items st =
    (replicate (length items) true,
     {| seen := list_to_set (id <$> items) ∪ seen st; q := q st ++ items |}).
Proof.
  induction items as [| it items IH]; intros st Hnd Hfresh; simpl.
  - destruct st as [s l]; simpl. rewrite app_nil_r. f_equal. f_equal.
    by rewrite (left_id_L ∅ (∪)).
  - apply NoDup_cons in Hnd as [Hit Hnd].
    rewrite enqueue_fresh by (apply Hfresh; left).
    rewrite IH; simpl.
    + f_equal. rewrite <- app_assoc. simpl. f_equal.
      by rewrite (assoc_L (∪)), (comm_L (∪) (list_to_set _)).
    + done.
    + intros it' Hin. apply not_elem_of_union. split.
      * apply not_elem_of_singleton. intros Heq. apply Hit.
        rewrite <- Heq. apply list_elem_of_fmap. eauto.
      * apply Hfresh. by right.
Qed.

Lemma dequeueN_drain : ∀ (l : list (QueueItem Payload)) (s : gset string),
  dequeueN (length l) {| seen := s; q := l |} =
    (Some <$> l, {| seen := s; q := [] |}).
Proof.
  induction l as [| x l IH]; intros s; simpl.
  - reflexivity.
  - rewrite IH. reflexivity.
Qed.

(** C1.  Starting from the empty queue, after any calls [calls_before], if
    [enqueue item] returns true, then after any further calls [calls_after]
    (enqueues and dequeues alike, so also when [item] has left the queue)
    an [enqueue] of an item with the same id returns false and leaves the
    state as it is: same dedup record, same queue, same size. *)
Theorem enqueue_once_per_id calls_before calls_after item again :
  fst (enqueue item (run calls_before init)) = true →
  id again = id item →
  let st := run calls_after (snd (enqueue item (run calls_before init))) in
  enqueue again st = (false, st)
  ∧ q (snd (enqueue again st)) = q st
  ∧ size (snd (enqueue again st)) = size st.
Proof.
  intros _ Hid st.
  assert (Hin : id again ∈ seen st).
  { rewrite Hid. apply (run_seen_mono calls_after). apply enqueue_seen. }
  rewrite (enqueue_dup _ _ Hin). done.
Qed.

(** C5.  [dequeue] takes the head of [q] and [enqueue] adds at its end, so
    items leave in the order they came: after enqueueing [items] (fresh,
    pairwise distinct ids) every enqueue has returned true, and successive
    dequeues return first what was already waiting, then [items] in their
    order; the queue is then empty and [dequeue] returns [undefined]
    without changing anything. *)
Theorem fifo st items :
  NoDup (id <$> items) →
  (∀ it, it ∈ items → id it ∉ seen st) →
  ∃ st1 st2,
    enqueueAll items st = (replicate (length items) true, st1)
    ∧ dequeueN (length (q st) + length items) st1 = (Some <$> (q st ++ items), st2)
    ∧ size st2 = 0
    ∧ dequeue st2 = (None, st2).
Proof.
  intros Hnd Hfresh. eexists _, _. split; [| split; [| split]].
  - apply enqueueAll_fresh; done.
  - rewrite <- length_app. apply dequeueN_drain.
  - reflexivity.
  - reflexivity.
Qed.

End WithPayload.

(** [a] is enqueued behind [b], both are dequeued, and [a] is refused when
    it comes again. *)
Lemma enqueue_once_per_id_witness :
  let st := run [CallDequeue; CallDequeue; CallSize]
                (snd (enqueue item_a (run [CallEnqueue item_b] init))) in
  size st = 0
  ∧ enqueue (mkItem "a" "ORU" ()) st = (false, st)
  ∧ q (snd (enqueue (mkItem "a" "ORU" ()) st)) = q st
  ∧ size (snd (enqueue (mkItem "a" "ORU" ()) st)) = size st.
Proof.
  split; [reflexivity |].
  apply (enqueue_once_per_id [CallEnqueue item_b] [CallDequeue; CallDequeue; CallSize]
           item_a (mkItem "a" "ORU" ())).
  - vm_compute. reflexivity.
  - reflexivity.
Defined.

(** [a], [b], [c] on the empty queue come back as [a], [b], [c]. *)
Lemma fifo_witness :
  ∃ st1 st2,
    enqueueAll [item_a; item_b; item_c] init = ([true; true; true], st1)
    ∧ dequeueN 3 st1 = ([Some item_a; Some item_b; Some item_c], st2)
    ∧ size st2 = 0
    ∧ dequeue st2 = (None, st2).
Proof.
  apply (fifo init [item_a; item_b; item_c]).
  - apply (bool_decide_unpack _). vm_compute. reflexivity.
  - intros it _. apply not_elem_of_empty.
Defined.

End QueueProps.

(** ** Metrics: monotone counters, snapshots are copies *)

Module MetricsProps.
Import Metrics MetricsSpec HistorySpec.

Lemma extends_refl h : 0 < length h → extends h h.
Proof. intros Hlen. repeat split; done. Qed.

Lemma extends_trans h1 h2 h3 : extends h1 h2 → extends h2 h3 → extends h1 h3.
Proof.
  intros (H1 & H2 & H3) (G1 & G2 & G3). repeat split.
  - done.
  - lia.
  - intros r Hr Hlt. rewrite G3 by (done || lia). by apply H3.
Qed.

Lemma inc_extends key h : 0 < length h → extends h (inc key h).
Proof.
  intros Hlen. unfold inc.
  destruct (h !! countersRef) as [c |] eqn:E; [| by apply extends_refl].
  repeat split.
  - by rewrite length_insert.
  - by rewrite length_insert.
  - intros r Hr _. by rewrite list_lookup_insert_ne.
Qed.

Lemma snapshot_extends h : 0 < length h → extends h (snd (snapshot h)).
Proof.
  intros Hlen. unfold snapshot.
  destruct (h !! countersRef) as [c |] eqn:E; simpl.
  - repeat split.
    + rewrite length_app. lia.
    + rewrite length_app. lia.
    + intros r _ Hlt. by rewrite lookup_app_l.
  - apply lookup_ge_None in E. unfold countersRef in E. lia.
Qed.

Lemma step_extends h c : 0 < length h → extends h (step h c).
Proof.
  intros Hlen. destruct c; simpl; [apply inc_extends | apply snapshot_extends]; done.
Qed.

Lemma run_extends calls : ∀ h, 0 < length h → extends h (run calls h).
Proof.
  induction calls as [| c calls IH]; intros h Hlen; simpl.
  - by apply extends_refl.
  - pose proof (step_extends h c Hlen) as Hs.
    eapply extends_trans; [exact Hs |]. apply IH. apply Hs.
Qed.

Lemma init_nonempty : 0 < length init.
Proof. simpl. lia. Qed.

Lemma run_init_nonempty calls : 0 < length (run calls init).
Proof. apply (run_extends calls init init_nonempty). Qed.

Lemma run_app calls1 calls2 h : run (calls1 ++ calls2) h = run calls2 (run calls1 h).
Proof. apply fold_left_app. Qed.

Lemma increments_app key calls1 calls2 :
  increments key (calls1 ++ calls2) = increments key calls1 + increments key calls2.
Proof.
  induction calls1 as [| [k |] calls1 IH]; simpl; [done | | done].
  rewrite IH. lia.
Qed.

(** The object a snapshot returns holds what [counters] held. *)
Lemma snapshot_read h k :
  0 < length h →
  read (snd (snapshot h)) (fst (snapshot h)) k = read h countersRef k.
Proof.
  intros Hlen. unfold snapshot, read.
  destruct (h !! countersRef) as [c |] eqn:E; simpl.
  - rewrite lookup_app_r by lia. by rewrite Nat.sub_diag.
  - apply lookup_ge_None in E. unfold countersRef in E. lia.
Qed.

Lemma snapshot_fresh h :
  0 < length h → fst (snapshot h) ≠ countersRef ∧ fst (snapshot h) = length h.
Proof.
  intros Hlen. unfold snapshot, countersRef.
  destruct (h !! 0); simpl; lia.
Qed.

Lemma snapshot_length h : length (snd (snapshot h)) = S (length h).
Proof. unfold snapshot. destruct (h !! countersRef); simpl; rewrite length_app; simpl; lia. Qed.

(** Taking a snapshot leaves the [counters] object as it is. *)
Lemma snapshot_counters h :
  0 < length h → snd (snapshot h) !! countersRef = h !! countersRef.
Proof.
  intros Hlen. unfold snapshot, countersRef.
  destruct (h !! 0) eqn:E; simpl; rewrite lookup_app_l by done; by rewrite E.
Qed.

Lemma read_snapshot_counters key h :
  0 < length h → read (snd (snapshot h)) countersRef key = read h countersRef key.
Proof. intros Hlen. unfold read. by rewrite snapshot_counters. Qed.

(** *** Keys that [counters] does not inherit *)

Lemma ordinary_spec key :
  ordinary key → String.eqb key "__proto__" = false ∧ inheritedText key = None.
Proof.
  unfold ordinary. intros Hord. apply not_elem_of_cons in Hord as [Hne Hnot].
  assert (Hp : String.eqb key "__proto__" = false) by (by apply String.eqb_neq).
  split; [exact Hp |]. unfold inheritedText. rewrite Hp.
  destruct (existsb (String.eqb key) methodsOfObjectPrototype) eqn:E; [| done].
  apply existsb_exists in E as (x & Hin & Hx).
  apply String.eqb_eq in Hx. subst x. apply list_elem_of_In in Hin. done.
Qed.

Lemma add1_reported m :
  add1 (Z.min (Z.of_nat (S m)) (2 ^ 53)) = Z.min (Z.of_nat (S (S m))) (2 ^ 53).
Proof. unfold add1. destruct (Z.ltb_spec (Z.min (Z.of_nat (S m)) (2 ^ 53)) (2 ^ 53)); lia. Qed.

Lemma read_inc_same key h m :
  ordinary key → 0 < length h →
  read h countersRef key = reported m →
  read (inc key h) countersRef key = reported (S m).
Proof.
  intros [Hp Hi]%ordinary_spec Hlen. unfold inc, read.
  destruct (h !! countersRef) as [c |] eqn:E.
  - rewrite list_lookup_insert_eq by done. simpl. intros Hc.
    unfold incObj, assign, plusOne. rewrite Hp, lookup_insert_eq, Hc, Hi.
    destruct m as [| m]; simpl reported.
    + reflexivity.
    + cbv iota beta.
      destruct (Z.eqb_spec (Z.min (Z.of_nat (S m)) (2 ^ 53)) 0) as [H0 | _]; [lia |].
      by rewrite add1_reported.
  - apply lookup_ge_None in E. unfold countersRef in E. lia.
Qed.

Lemma read_inc_other key k h :
  k ≠ key → read (inc k h) countersRef key = read h countersRef key.
Proof.
  intros Hne. unfold inc, read.
  destruct (h !! countersRef) as [c |] eqn:E; [| by rewrite E].
  rewrite list_lookup_insert_eq by (by eapply lookup_lt_Some). simpl.
  unfold incObj, assign. destruct (String.eqb k "__proto__"); [done |].
  by rewrite lookup_insert_ne.
Qed.

Lemma step_nonempty h c : 0 < length h → 0 < length (step h c).
Proof. intros Hlen. apply (step_extends h c Hlen). Qed.

(** Under a key that is not inherited the counters hold the number of
    increments. *)
Lemma read_run key calls :
  ordinary key → ∀ h m,
  0 < length h →
  read h countersRef key = reported m →
  read (run calls h) countersRef key = reported (m + increments key calls).
Proof.
  intros Hord. induction calls as [| c calls IH]; intros h m Hlen Hread; simpl.
  - by rewrite Nat.add_0_r.
  - pose proof (step_nonempty h c Hlen) as Hlen'.
    destruct c as [k |]; simpl in *.
    + destruct (String.eqb_spec k key) as [-> | Hne].
      * rewrite (IH (inc key h) (S m)); [f_equal; lia | done |].
        by apply read_inc_same.
      * rewrite (IH (inc k h) m); [done | done |]. by rewrite read_inc_other.
    + rewrite (IH (snd (snapshot h)) m); [done | done |].
      by rewrite read_snapshot_counters.
Qed.

Lemma read_run_init key calls :
  ordinary key →
  read (run calls init) countersRef key = reported (increments key calls).
Proof.
  intros Hord.
  apply (read_run key calls Hord init 0 init_nonempty).
  unfold read. simpl. apply lookup_empty.
Qed.

(** *** Keys that [counters] inherits *)




End MetricsProps.

(** ** String primitives: what [startsWith] and [includes] decide *)

Module JsProps.
Import Js.

Lemma startsWith_spec s p : startsWith s p = true ↔ ∃ rest, s = p +:+ rest.
Proof.
  revert s. induction p as [| c p IH]; intros s; simpl.
  - split; [intros _; by exists s | done].
  - destruct s as [| d s]; simpl.
    + split; [done | intros [rest Hrest]; discriminate Hrest].
    + rewrite andb_true_iff, IH. split.
      * intros [Hc [rest ->]]. apply Ascii.eqb_eq in Hc. subst d. by exists rest.
      * intros [rest [= -> ->]]. split; [apply Ascii.eqb_refl | by exists rest].
Qed.

(** [includes s needle] holds exactly when [needle] occurs in [s] as a
    contiguous substring. *)
Lemma includes_spec s needle :
  includes s needle = true ↔ ∃ before after, s = before +:+ needle +:+ after.
Proof.
  induction s as [| c s IH]; simpl.
  - rewrite orb_false_r, startsWith_spec. split.
    + intros [rest Hrest]. by exists "", rest.
    + intros ([| b before] & after & H); [by exists after | discriminate H].
  - rewrite orb_true_iff, IH, startsWith_spec. split.
    + intros [[rest Hrest] | (before & after & ->)].
      * by exists "", rest.
      * by exists (String c before), after.
    + intros ([| b before] & after & H); simpl in H.
      * left. by exists after.
      * right. injection H as -> ->. by exists before, after.
Qed.

Lemma truthy_spec s : truthy s = true ↔ s ≠ "".
Proof. destruct s; simpl; split; done. Qed.

(** [split] never returns the empty array. *)
Lemma split_nonempty sep s : ∃ first rest, split sep s = first :: rest.
Proof.
  destruct s as [| c s]; simpl; [by eexists _, _ |].
  destruct (Ascii.eqb c sep); [by eexists _, _ |].
  destruct (split sep s); by eexists _, _.
Qed.

Lemma at_or_nil i dflt : at_or [] i dflt = dflt.
Proof. unfold at_or. by rewrite lookup_nil. Qed.

End JsProps.

(** ** The policy gate *)

Module PolicyProps.
Import Js Event Orchestrator PolicySpec.

Lemma firstViolation_split event : ∀ ps pre p post,
  ps = pre ++ p :: post →
  Forall (passes event) pre →
  Policy.check p event = false →
  firstViolation ps event = Some p.
Proof.
  intros ps pre. revert ps.
  induction pre as [| a pre IH]; intros ps p post -> Hpre Hp; simpl.
  - by rewrite Hp.
  - apply Forall_cons in Hpre as [Ha Hpre]. unfold passes in Ha. rewrite Ha. simpl.
    by eapply IH.
Qed.

Lemma firstViolation_none event ps :
  Forall (passes event) ps → firstViolation ps event = None.
Proof.
  induction 1 as [| p ps Hp _ IH]; simpl; [done |].
  unfold passes in Hp. by rewrite Hp.
Qed.

(** What the three predicates decide, in declaration order. *)
Lemma checks_spec event :
  (λ p, Policy.check p event) <$> policies =
    [ bool_decide (patientMRN (data event) ≠ "");
      includes (messageType (data event)) "ADT";
      bool_decide (facilityId event = "FACILITY_001"
                   ∨ facilityId event = "FACILITY_002") ].
Proof.
  simpl. f_equal; [| f_equal; [| f_equal]].
  - by destruct (patientMRN (data event)).
  - by destruct (messageType (data event)).
  - rewrite orb_false_r.
    destruct (String.eqb_spec (facilityId event) "FACILITY_001") as [-> | H1]; [done |].
    destruct (String.eqb_spec (facilityId event) "FACILITY_002") as [-> | H2]; [done |].
    simpl. symmetry. apply bool_decide_eq_false. tauto.
Qed.

(** C2.  The gate holds its predicates in the order patient-mrn-required,
    valid-message-type, facility-whitelist.  Whenever a predicate fails
    and all those declared before it pass, the result is a denial carrying
    that predicate's reason and its name under [violatedPolicy], whatever
    the predicates declared after it would say; when all pass, the result
    allows the event and reports the number of policies, 3, under
    [policiesChecked]. *)
Theorem policy_gate_first_violation (event : NormalizedEvent) :
  Policy.name <$> policies
    = ["patient-mrn-required"; "valid-message-type"; "facility-whitelist"]
  ∧ (∀ pre p post,
       policies = pre ++ p :: post →
       Forall (passes event) pre →
       Policy.check p event = false →
       snd (validateEventPolicy event) = deny p)
  ∧ (Forall (passes event) policies →
     snd (validateEventPolicy event) = allow 3).
Proof.
  split; [reflexivity | split].
  - intros pre p post Hsplit Hpre Hp. unfold validateEventPolicy.
    by rewrite (firstViolation_split event policies pre p post Hsplit Hpre Hp).
  - intros Hall. unfold validateEventPolicy.
    by rewrite (firstViolation_none event policies Hall).
Qed.

(** All three predicates fail on [badEvent]; the first one is reported. *)
Lemma policy_gate_first_violation_witness :
  Forall (λ p, Policy.check p badEvent = false) policies
  ∧ snd (validateEventPolicy badEvent) =
      {| allowed := false; reason := "Patient MRN is required";
         metadata := [("violatedPolicy", MStr "patient-mrn-required")] |}
  ∧ snd (validateEventPolicy goodEvent) =
      {| allowed := true; reason := "All policies passed";
         metadata := [("policiesChecked", MNum 3)] |}.
Proof.
  split; [| split].
  - repeat constructor.
  - destruct (policy_gate_first_violation badEvent) as (_ & Hfirst & _).
    exact (Hfirst [] _ _ eq_refl (List.Forall_nil _) eq_refl).
  - destruct (policy_gate_first_violation goodEvent) as (_ & _ & Hall).
    apply Hall. repeat constructor.
Defined.

End PolicyProps.

(** ** The orchestrator: tallies of a batch *)

Module OrchestratorProps.
Import Js Event Orchestrator Json Agent PolicySpec AgentSpec.

Lemma dbWrites_app a b : dbWrites (a ++ b) = dbWrites a + dbWrites b.
Proof. unfold dbWrites. by rewrite filter_app, length_app. Qed.

Lemma dbWrites_cons l out : dbWrites (l :: out) = tick (isDbLine l) + dbWrites out.
Proof.
  unfold dbWrites. rewrite filter_cons. case_decide as Hl.
  - rewrite Hl. reflexivity.
  - apply not_true_is_false in Hl. rewrite Hl. reflexivity.
Qed.

Lemma dbWrites_nil : dbWrites [] = 0.
Proof. reflexivity. Qed.

Ltac count_db :=
  rewrite ?dbWrites_app, ?dbWrites_cons, ?dbWrites_nil; simpl; lia.

Lemma count_cons (f : Json.t -> bool) ev events :
  length (filter (λ e, f e = true) (ev :: events))
  = tick (f ev) + length (filter (λ e, f e = true) events).
Proof.
  rewrite filter_cons. case_decide as Hf.
  - rewrite Hf. reflexivity.
  - apply not_true_is_false in Hf. rewrite Hf. reflexivity.
Qed.

Lemma reached_all events :
  reached events = events ↔ Forall (λ ev, loggable ev = true) events.
Proof.
  induction events as [| ev events IH]; simpl.
  - split; [intros _; apply List.Forall_nil | done].
  - destruct (loggable ev) eqn:E.
    + split.
      * intros [= Heq]. apply List.Forall_cons; [done | by apply IH].
      * intros Hall. apply Forall_cons in Hall as [_ Hall]. f_equal. by apply IH.
    + split; [done |]. intros Hall. apply Forall_cons in Hall as [Hev _]. congruence.
Qed.

Section WithConversion.
Variable convertedAboveZero : Json.t -> Completion bool.

Local Abbreviation validate := (validateEventPolicy convertedAboveZero).
Local Abbreviation outcome := (AgentSpec.outcome convertedAboveZero).
Local Abbreviation rejected := (AgentSpec.rejected convertedAboveZero).
Local Abbreviation succeeded := (AgentSpec.succeeded convertedAboveZero).
Local Abbreviation failed := (AgentSpec.failed convertedAboveZero).
Local Abbreviation errorLines := (AgentSpec.errorLines convertedAboveZero).

(** The gate logs lines of its own only. *)
Lemma validate_no_dbLine event : dbWrites (fst (validate event)) = 0.
Proof.
  unfold validateEventPolicy. destruct (get event "id") as [id |]; [| reflexivity].
  destruct (firstViolation (policies convertedAboveZero) event)
    as [[p |] |]; reflexivity.
Qed.

(** The [try], [catch] and [finally] blocks: one tally per event. *)
Lemma tryBlock_spec event w :
  let w' := tryBlock convertedAboveZero event w in
  eventsProcessed (metrics w') = eventsProcessed (metrics w) + 1
  ∧ policyViolations (metrics w') = policyViolations (metrics w) + tick (rejected event)
  ∧ successCount (metrics w') = successCount (metrics w) + tick (succeeded event)
  ∧ errorCount (metrics w')
    = errorCount (metrics w) + tick (rejected event) + tick (failed event)
  ∧ stderr w' = stderr w ++ errorLines event
  ∧ counters w' = Metrics.inc "processed" (counters w)
  ∧ (∃ more, stdout w' = stdout w ++ more)
  ∧ dbWrites (stdout w') = dbWrites (stdout w) + tick (succeeded event)
  ∧ (∀ why, outcome event = Rejected why →
       [Val (Str "[Agent] Event rejected:"); Val (Str why)] ∈ stdout w').
Proof.
  pose proof (validate_no_dbLine event) as Hdb.
  unfold tryBlock, AgentSpec.rejected, AgentSpec.succeeded, AgentSpec.failed,
    AgentSpec.errorLines, AgentSpec.outcome.
  destruct (validate event) as [vlog [policy | err]]; simpl in *.
  - destruct (allowed policy); simpl.
    + rewrite app_nil_r.
      split; [lia |]. split; [lia |]. split; [lia |]. split; [lia |].
      split; [done |]. split; [done |]. split; [| split].
      * eexists. rewrite <- !app_assoc. reflexivity.
      * rewrite !dbWrites_app, Hdb. count_db.
      * intros why Hwhy. discriminate Hwhy.
    + rewrite app_nil_r.
      split; [lia |]. split; [lia |]. split; [lia |]. split; [lia |].
      split; [done |]. split; [done |]. split; [| split].
      * eexists. rewrite <- !app_assoc. reflexivity.
      * rewrite !dbWrites_app, Hdb. count_db.
      * intros why [= <-]. rewrite !elem_of_app. right.
        apply list_elem_of_singleton. reflexivity.
  - split; [lia |]. split; [lia |]. split; [lia |]. split; [lia |].
    split; [done |]. split; [done |]. split; [| split].
    + eexists. reflexivity.
    + rewrite !dbWrites_app, Hdb. count_db.
    + intros why Hwhy. discriminate Hwhy.
Qed.

(** When the three lines before the [try] can be written, [processEvent]
    returns, after the [try] statement. *)
Lemma processEvent_loggable event w :
  loggable event = true →
  ∃ w0, processEvent convertedAboveZero event w
        = Returned (tryBlock convertedAboveZero event w0)
    ∧ metrics w0 = metrics w
    ∧ counters w0 = counters w
    ∧ stderr w0 = stderr w
    ∧ (∃ more, stdout w0 = stdout w ++ more)
    ∧ dbWrites (stdout w0) = dbWrites (stdout w).
Proof.
  unfold loggable, processEvent, get. intros H.
  apply andb_true_iff in H as [H H3]. apply andb_true_iff in H as [H1 H2].
  apply negb_true_iff in H1, H2, H3. rewrite H1, H2, H3.
  eexists. split; [reflexivity |]. simpl. repeat split.
  - eexists. rewrite <- !app_assoc. reflexivity.
  - count_db.
Qed.

(** When one of them cannot, the read throws outside the [try]: nothing is
    tallied. *)
Lemma processEvent_not_loggable event w :
  loggable event = false →
  ∃ w' err, processEvent convertedAboveZero event w = Thrown w' err
    ∧ metrics w' = metrics w
    ∧ counters w' = counters w
    ∧ stderr w' = stderr w
    ∧ (∃ more, stdout w' = stdout w ++ more)
    ∧ dbWrites (stdout w') = dbWrites (stdout w).
Proof.
  unfold loggable, processEvent, get. intros H.
  destruct (nullish event) eqn:H1; simpl in H.
  { exists w, "TypeError". repeat split. exists []. by rewrite app_nil_r. }
  destruct (nullish (field event "data")) eqn:H2; simpl in H.
  { eexists _, _. split; [reflexivity |]. simpl. repeat split.
    - eexists. rewrite <- !app_assoc. reflexivity.
    - count_db. }
  apply negb_false_iff in H. rewrite H.
  eexists _, _. split; [reflexivity |]. simpl. repeat split.
  - eexists. rewrite <- !app_assoc. reflexivity.
  - count_db.
Qed.

(** The whole loop: one tally for every event that it gets to. *)
Lemma processAll_reached events : ∀ w,
  let w' := world (processAll convertedAboveZero events w) in
  let done := reached events in
  eventsProcessed (metrics w') = eventsProcessed (metrics w) + length done
  ∧ policyViolations (metrics w')
      = policyViolations (metrics w) + length (filter (λ e, rejected e = true) done)
  ∧ successCount (metrics w')
      = successCount (metrics w) + length (filter (λ e, succeeded e = true) done)
  ∧ errorCount (metrics w')
      = errorCount (metrics w) + length (filter (λ e, rejected e = true) done)
        + length (filter (λ e, failed e = true) done)
  ∧ stderr w' = stderr w ++ concat (errorLines <$> done)
  ∧ counters w'
      = MetricsSpec.run (replicate (length done) (MetricsSpec.CallInc "processed"))
                        (counters w)
  ∧ (∃ more, stdout w' = stdout w ++ more)
  ∧ dbWrites (stdout w')
      = dbWrites (stdout w) + length (filter (λ e, succeeded e = true) done).
Proof.
  induction events as [| ev events IH]; intros w; simpl.
  - rewrite !Nat.add_0_r, !app_nil_r. repeat split. exists []. by rewrite app_nil_r.
  - destruct (loggable ev) eqn:Hlog.
    + destruct (processEvent_loggable ev w Hlog)
        as (w0 & -> & M0 & C0 & E0 & [more0 S0] & D0).
      specialize (IH (tryBlock convertedAboveZero ev w0)). simpl in IH.
      destruct IH as (I1 & I2 & I3 & I4 & I5 & I6 & [more I7] & I8).
      pose proof (tryBlock_spec ev w0)
        as (T1 & T2 & T3 & T4 & T5 & T6 & [more1 T7] & T8 & _).
      rewrite !count_cons.
      rewrite I1, I2, I3, I4, I5, I6, I8, I7, T1, T2, T3, T4, T5, T6, T8, T7,
        M0, C0, E0, D0, S0.
      repeat split; simpl; try lia.
      * by rewrite <- app_assoc.
      * exists (more0 ++ more1 ++ more). by rewrite <- !app_assoc.
    + destruct (processEvent_not_loggable ev w Hlog)
        as (w' & err & -> & M0 & C0 & E0 & S0 & D0).
      simpl. rewrite M0, C0, E0, D0, !Nat.add_0_r, app_nil_r. repeat split. exact S0.
Qed.

(** The loop returns when it gets to every event, and only then. *)
Lemma processAll_returns events : ∀ w,
  (∃ w', processAll convertedAboveZero events w = Returned w')
  ↔ reached events = events.
Proof.
  induction events as [| ev events IH]; intros w; simpl.
  - split; [done | eauto].
  - destruct (loggable ev) eqn:Hlog.
    + destruct (processEvent_loggable ev w Hlog) as (w0 & -> & _).
      rewrite IH. split; [by intros -> | by intros [= ->]].
    + destruct (processEvent_not_loggable ev w Hlog) as (w' & err & -> & _).
      split; [by intros [? ?] | done].
Qed.

Lemma processAll_rejections events : ∀ w ev why,
  ev ∈ reached events → outcome ev = Rejected why →
  [Val (Str "[Agent] Event rejected:"); Val (Str why)]
    ∈ stdout (world (processAll convertedAboveZero events w)).
Proof.
  induction events as [| e events IH]; intros w ev why Hin Hout; simpl in *.
  - by apply elem_of_nil in Hin.
  - destruct (loggable e) eqn:Hlog; [| by apply elem_of_nil in Hin].
    destruct (processEvent_loggable e w Hlog) as (w0 & -> & _).
    apply elem_of_cons in Hin as [<- | Hin].
    + pose proof (tryBlock_spec ev w0) as (_ & _ & _ & _ & _ & _ & _ & _ & Hrej).
      pose proof (processAll_reached events (tryBlock convertedAboveZero ev w0))
        as (_ & _ & _ & _ & _ & _ & [more Hmore] & _).
      simpl in Hmore. rewrite Hmore.
      apply elem_of_app. left. by apply Hrej.
    + by eapply IH.
Qed.

Lemma one_outcome events :
  length (filter (λ e, rejected e = true) events)
  + length (filter (λ e, succeeded e = true) events)
  + length (filter (λ e, failed e = true) events)
  = length events.
Proof.
  induction events as [| ev events IH]; [done |].
  rewrite !count_cons. simpl. rewrite <- IH.
  unfold AgentSpec.rejected, AgentSpec.succeeded, AgentSpec.failed.
  destruct (outcome ev); simpl; lia.
Qed.

(** *** A well-typed [NormalizedEvent] *)

Lemma loggable_ofEvent e : loggable (ofEvent e) = true.
Proof.
  destruct e as [? ? ? ? ? [? ? ? ? ? [l |] [a |]] ?]; reflexivity.
Qed.

(** On the object of a well-typed event the checks are the predicates of
    [Orchestrator.policies], and none of them throws. *)
Lemma policies_ofEvent e :
  Forall2 (λ c p, Check.name c = Policy.name p
                  ∧ Check.reason c = Policy.reason p
                  ∧ Check.check c (ofEvent e) = Normal (Policy.check p e))
          (policies convertedAboveZero) Orchestrator.policies.
Proof.
  destruct e as [i t p f ts [mt mrn nm dob g [l |] [a |]] md];
    (repeat constructor; simpl;
     [ destruct mrn; reflexivity | destruct mt; reflexivity ]).
Qed.

Lemma firstViolation_ofEvent e cs ps :
  Forall2 (λ c p, Check.name c = Policy.name p
                  ∧ Check.reason c = Policy.reason p
                  ∧ Check.check c (ofEvent e) = Normal (Policy.check p e)) cs ps →
  match firstViolation cs (ofEvent e),
        Orchestrator.firstViolation ps e with
  | Normal (Some c), Some p => Check.name c = Policy.name p ∧ Check.reason c = Policy.reason p
  | Normal None, None => True
  | _, _ => False
  end.
Proof.
  induction 1 as [| c p cs ps (Hn & Hr & Hc) _ IH]; simpl; [done |].
  rewrite Hc. destruct (Policy.check p e); simpl; [exact IH | done].
Qed.

(** On the object of a well-typed event the gate is
    [Orchestrator.validateEventPolicy]. *)
Lemma validateEventPolicy_ofEvent e :
  validate (ofEvent e)
  = (map (map (λ s, Val (Str s))) (fst (Orchestrator.validateEventPolicy e)),
     Normal (snd (Orchestrator.validateEventPolicy e))).
Proof.
  pose proof (firstViolation_ofEvent e _ _ (policies_ofEvent e)) as H.
  unfold validateEventPolicy, Orchestrator.validateEventPolicy.
  assert (Hid : get (ofEvent e) "id" = Normal (Str (id e))) by reflexivity.
  rewrite Hid.
  destruct (firstViolation (policies convertedAboveZero) (ofEvent e))
    as [[c |] |], (Orchestrator.firstViolation Orchestrator.policies e) as [p |];
    try done.
  destruct H as [-> ->]. reflexivity.
Qed.

End WithConversion.

(** C9, as the code has it, for a batch of payloads on which the three
    log lines that precede the [try] can be written (every well-typed
    event is one, [loggable_ofEvent]).  The loop returns, having run to
    the end of the batch: [eventsProcessed] and the [processed] counter
    grow by the number of events.  A denial is logged as a rejection with
    the policy's reason and counted in [policyViolations] and in
    [errorCount]; a failure thrown by the policy gate is caught, written to
    the error stream and counted in [errorCount] only, so the two are told
    apart by [policyViolations] and by the stream, not by [errorCount]. *)
Theorem batch_tally
    (convertedAboveZero : Json.t -> Completion bool)
    (events : list Json.t) (w : World) :
  let violations :=
    length (filter (λ e, rejected convertedAboveZero e = true) events) in
  let failures :=
    length (filter (λ e, failed convertedAboveZero e = true) events) in
  Forall (λ ev, loggable ev = true) events →
  ∃ w', processAll convertedAboveZero events w = Returned w'
    ∧ eventsProcessed (metrics w') = eventsProcessed (metrics w) + length events
    ∧ counters w'
        = MetricsSpec.run (replicate (length events) (MetricsSpec.CallInc "processed"))
                          (counters w)
    ∧ policyViolations (metrics w') = policyViolations (metrics w) + violations
    ∧ successCount (metrics w')
        = successCount (metrics w)
          + length (filter (λ e, succeeded convertedAboveZero e = true) events)
    ∧ errorCount (metrics w') = errorCount (metrics w) + violations + failures
    ∧ stderr w' = stderr w ++ concat (errorLines convertedAboveZero <$> events)
    ∧ (∀ ev why, ev ∈ events → outcome convertedAboveZero ev = Rejected why →
         [Val (Str "[Agent] Event rejected:"); Val (Str why)] ∈ stdout w').
Proof.
  intros violations failures Hall. apply reached_all in Hall.
  destruct (proj2 (processAll_returns convertedAboveZero events w) Hall) as [w' Hret].
  pose proof (processAll_reached convertedAboveZero events w)
    as (T1 & T2 & T3 & T4 & T5 & T6 & _).
  pose proof (processAll_rejections convertedAboveZero events w) as Hrej.
  rewrite Hret, Hall in *. simpl in *.
  exists w'. repeat split; try done.
Qed.

(** A batch with a failure inside the gate, a violation and a success:
    all three are tallied, and the rejection is logged with its reason. *)
Lemma batch_tally_witness :
  ∃ w', processAll noConversion [numericMessageType; ofEvent badEvent; ofEvent goodEvent]
          (start Metrics.init) = Returned w'
    ∧ eventsProcessed (metrics w') = 3
    ∧ policyViolations (metrics w') = 1
    ∧ successCount (metrics w') = 1
    ∧ errorCount (metrics w') = 2
    ∧ MetricsSpec.read (counters w') Metrics.countersRef "processed"
      = Some (Metrics.VNum 3)
    ∧ stderr w' = [[Val (Str "[Agent] Error processing event:"); Caught "TypeError"]]
    ∧ [Val (Str "[Agent] Event rejected:"); Val (Str "Patient MRN is required")]
        ∈ stdout w'.
Proof.
  destruct (batch_tally noConversion
              [numericMessageType; ofEvent badEvent; ofEvent goodEvent]
              (start Metrics.init))
    as (w' & Hret & T1 & T2 & T3 & T4 & T5 & T6 & T7).
  { repeat constructor. }
  exists w'. split; [exact Hret |].
  split; [rewrite T1; reflexivity |].
  split; [rewrite T3; vm_compute; reflexivity |].
  split; [rewrite T4; vm_compute; reflexivity |].
  split; [rewrite T5; vm_compute; reflexivity |].
  split; [rewrite T2; vm_compute; reflexivity |].
  split; [rewrite T6; vm_compute; reflexivity |].
  apply (T7 (ofEvent badEvent) "Patient MRN is required").
  - apply elem_of_cons. right. apply elem_of_cons. left. reflexivity.
  - vm_compute. reflexivity.
Defined.

(** C9 as stated fails: a violation is counted as an error. *)
Lemma violation_counted_as_error :
  ¬ (∀ (convertedAboveZero : Json.t -> Completion bool)
       (event : Json.t) (w w' : World),
       processEvent convertedAboveZero event w = Returned w' →
       rejected convertedAboveZero event = true →
       errorCount (metrics w') = errorCount (metrics w)).
Proof.
  intros H.
  specialize (H noConversion (ofEvent badEvent) (start Metrics.init)
                (world (processEvent noConversion (ofEvent badEvent)
                          (start Metrics.init)))).
  assert (H1 : errorCount (metrics (world (processEvent noConversion (ofEvent badEvent)
                                             (start Metrics.init))))
               = errorCount (metrics (start Metrics.init))).
  { apply H; vm_compute; reflexivity. }
  vm_compute in H1. discriminate H1.
Qed.

End OrchestratorProps.

(** ** The normaliser *)

Module NormalizerProps.
Import Js Event NormalizerSpec.

Lemma at_or_blank i dflt : at_or [""] i dflt = dflt.
Proof. by destruct i. Qed.

Lemma at_or_short arr i dflt : length arr ≤ i → at_or arr i dflt = dflt.
Proof. intros Hlen. unfold at_or. by rewrite lookup_ge_None_2. Qed.

Lemma at_or_nonempty arr i dflt : dflt ≠ "" → at_or arr i dflt ≠ "".
Proof.
  intros Hd. unfold at_or. destruct (arr !! i) as [s |]; [| done].
  destruct s; simpl; done.
Qed.

Lemma stub_segment_absent tag lines : absent tag lines → Stub.segment tag lines = [].
Proof. unfold absent, Stub.segment. by intros ->. Qed.

Lemma esm_segment_absent tag lines : absent tag lines → Esm.segment tag lines = [""].
Proof. unfold absent, Esm.segment. by intros ->. Qed.

(** The stub parser returns on every input: [lines[0]] is always there. *)
Lemma stub_parse_total run hl7 : is_Some (Stub.parseHL7Message run hl7).
Proof.
  unfold Stub.parseHL7Message.
  destruct (JsProps.split_nonempty Stub.LF hl7) as (line0 & rest & ->). simpl. eauto.
Qed.

(** The classification of the ESM parser: ordered substring tests. *)
Lemma eventTypeOf_spec code :
  let has sub := ∃ before after, code = before +:+ sub +:+ after in
  (has "A01" → Esm.eventTypeOf code = admission)
  ∧ (¬ has "A01" → has "A03" → Esm.eventTypeOf code = discharge)
  ∧ (¬ has "A01" → ¬ has "A03" → has "A02" → Esm.eventTypeOf code = transfer)
  ∧ (¬ has "A01" → ¬ has "A03" → ¬ has "A02" → Esm.eventTypeOf code = update).
Proof.
  intros has. unfold Esm.eventTypeOf.
  pose proof (JsProps.includes_spec code "A01") as H1.
  pose proof (JsProps.includes_spec code "A03") as H3.
  pose proof (JsProps.includes_spec code "A02") as H2.
  fold (has "A01") in H1. fold (has "A03") in H3. fold (has "A02") in H2.
  destruct (includes code "A01"), (includes code "A03"), (includes code "A02");
    repeat split; intros; try reflexivity; exfalso;
    repeat match goal with
           | H : true = true ↔ _ |- _ => apply proj1 in H; specialize (H eq_refl)
           | H : false = true ↔ _ |- _ => apply proj2 in H
           end; try tauto;
    match goal with
    | H : has ?x → false = true, G : has ?x |- _ => discriminate (H G)
    end.
Qed.

Lemma esm_type run hl7 :
  type (Esm.parseHL7Message run hl7)
  = Esm.eventTypeOf (messageType (data (Esm.parseHL7Message run hl7))).
Proof. reflexivity. Qed.

(** The classification of the stub parser: one test. *)
Lemma stub_type run hl7 e :
  Stub.parseHL7Message run hl7 = Some e →
  type e = if includes (messageType (data e)) "A01" then admission else update.
Proof.
  unfold Stub.parseHL7Message.
  destruct (split Stub.LF hl7 !! 0) as [line0 |]; simpl; [| done].
  by intros [= <-].
Qed.

(** The stub parser never answers [discharge] or [transfer]. *)
Lemma stub_never_discharge_or_transfer run hl7 e :
  Stub.parseHL7Message run hl7 = Some e → type e = admission ∨ type e = update.
Proof.
  intros He. rewrite (stub_type run hl7 e He).
  destruct (includes (messageType (data e)) "A01"); [by left | by right].
Qed.

(** C6.  On a discharge message, whose message-type code is [ADT^A03], the
    stub parser of hl7-ingest.ts answers [update]: it tests [A01] only.
    The ESM parser answers [discharge] ([eventTypeOf_spec] gives its
    classification in full). *)
Theorem stub_misclassifies_discharge :
  (messageType ∘ data) <$> Stub.parseHL7Message stubRun1 dischargeMessage = Some "ADT^A03"
  ∧ type <$> Stub.parseHL7Message stubRun1 dischargeMessage = Some update
  ∧ type (Esm.parseHL7Message esmRun1 dischargeMessage) = discharge.
Proof. vm_compute. done. Qed.

(** C3 as stated fails: two runs of the stub parser on the sample message
    give events that differ in [id] and in [timestamp]; two runs of the ESM
    parser give events that differ in [timestamp]. *)
Lemma normalizer_depends_on_run :
  ∃ e1 e2,
    Stub.parseHL7Message stubRun1 Stub.sampleHL7Message = Some e1
    ∧ Stub.parseHL7Message stubRun2 Stub.sampleHL7Message = Some e2
    ∧ id e1 ≠ id e2
    ∧ timestamp e1 ≠ timestamp e2
    ∧ timestamp (Esm.parseHL7Message esmRun1 Stub.sampleHL7Message)
      ≠ timestamp (Esm.parseHL7Message esmRun2 Stub.sampleHL7Message).
Proof.
  eexists _, _. split; [vm_compute; reflexivity |]. split; [vm_compute; reflexivity |].
  repeat split; vm_compute; discriminate.
Qed.

(** C3, as the code has it.  In both parsers every field of the event
    other than [id], [timestamp] and [metadata.processedAt] is the same in
    every run on the same message; [timestamp] and [processedAt] are the
    clock readings of the run. *)
Theorem normalizer_fields_independent_of_run
    (hl7 : string) (run1 run2 : Stub.Run) (run1' run2' : Esm.Run) :
  (∃ e1 e2,
      Stub.parseHL7Message run1 hl7 = Some e1
      ∧ Stub.parseHL7Message run2 hl7 = Some e2
      ∧ type e1 = type e2
      ∧ patientId e1 = patientId e2
      ∧ facilityId e1 = facilityId e2
      ∧ data e1 = data e2
      ∧ originalHL7 (metadata e1) = originalHL7 (metadata e2)
      ∧ source (metadata e1) = source (metadata e2)
      ∧ timestamp e1 = Stub.isoTimestamp run1
      ∧ processedAt (metadata e1) = Stub.isoProcessedAt run1)
  ∧ (let e1 := Esm.parseHL7Message run1' hl7 in
     let e2 := Esm.parseHL7Message run2' hl7 in
     type e1 = type e2
     ∧ patientId e1 = patientId e2
     ∧ facilityId e1 = facilityId e2
     ∧ data e1 = data e2
     ∧ originalHL7 (metadata e1) = originalHL7 (metadata e2)
     ∧ source (metadata e1) = source (metadata e2)
     ∧ timestamp e1 = Esm.isoTimestamp run1'
     ∧ processedAt (metadata e1) = Esm.isoProcessedAt run1').
Proof.
  split.
  - unfold Stub.parseHL7Message.
    destruct (JsProps.split_nonempty Stub.LF hl7) as (line0 & rest & ->). simpl.
    eexists _, _. repeat split.
  - repeat split.
Qed.

(** In the ESM parser the id is the control id of the message whenever
    MSH-10 is there, and then it is the same in every run. *)
Lemma esm_id_from_control_id hl7 (run1 run2 : Esm.Run) controlId :
  Esm.segment "MSH" (Esm.splitLines (Esm.trim hl7)) !! 9 = Some controlId →
  controlId ≠ "" →
  id (Esm.parseHL7Message run1 hl7) = "evt_" +:+ controlId
  ∧ id (Esm.parseHL7Message run2 hl7) = id (Esm.parseHL7Message run1 hl7).
Proof.
  intros Hmsh Hne.
  assert (Hid : ∀ run, id (Esm.parseHL7Message run hl7) = "evt_" +:+ controlId).
  { intros run. change (id (Esm.parseHL7Message run hl7))
      with ("evt_" +:+ at_or (Esm.segment "MSH" (Esm.splitLines (Esm.trim hl7))) 9
                             ("MSG" +:+ num_to_string (Esm.dateNow run))).
    unfold at_or. rewrite Hmsh. by destruct controlId. }
  by rewrite !Hid.
Qed.

(** C4 as stated fails: on the empty message, where every segment is
    absent, the fields read from MSH and the patient id are not empty. *)
Lemma absent_segment_fields_not_all_empty :
  ¬ (∀ (run : Stub.Run) (hl7 : string) e,
       Stub.parseHL7Message run hl7 = Some e →
       (absent "MSH" (split Stub.LF hl7) →
          messageType (data e) = "" ∧ facilityId e = "")
       ∧ (absent "PID" (split Stub.LF hl7) →
          patientId e = "" ∧ patientMRN (data e) = ""
          ∧ patientName (data e) = {| family := ""; given := "" |}
          ∧ patientDOB (data e) = "" ∧ patientGender (data e) = "")
       ∧ (absent "PV1" (split Stub.LF hl7) →
          location (data e) = Some "" ∧ attendingPhysician (data e) = Some "")).
Proof.
  intros H.
  destruct (H stubRun1 "" _ eq_refl) as [Hmsh _].
  destruct (Hmsh eq_refl) as [Htype _].
  vm_compute in Htype. discriminate Htype.
Qed.

(** C4, as the code has it.  Neither parser throws, whatever the input.
    Without a PID line the MRN, the two name parts, the date of birth and
    the gender are empty, and the patient id is a placeholder: ['unknown']
    in the stub, ['MRN_UNKNOWN'] (also as MRN) in the ESM parser.  Without
    a PV1 line the location and the attending physician are empty.  The
    message type and the facility are never empty: they default to
    ['ADT^A01'] and ['FACILITY_001'], in the stub when the first line is
    too short to hold them, in the ESM parser when there is no MSH line
    (where the id is then ['evt_MSG'] followed by the clock). *)
Theorem normalizer_tolerates_missing_segments
    (run : Stub.Run) (run' : Esm.Run) (hl7 : string) :
  (let lines := split Stub.LF hl7 in
   ∃ e, Stub.parseHL7Message run hl7 = Some e
     ∧ (absent "PID" lines →
          patientMRN (data e) = ""
          ∧ patientName (data e) = {| family := ""; given := "" |}
          ∧ patientDOB (data e) = "" ∧ patientGender (data e) = ""
          ∧ patientId e = "unknown")
     ∧ (absent "PV1" lines →
          location (data e) = Some "" ∧ attendingPhysician (data e) = Some "")
     ∧ messageType (data e) ≠ "" ∧ facilityId e ≠ ""
     ∧ (∀ line0 rest, lines = line0 :: rest →
          (length (split "|" line0) ≤ 8 → messageType (data e) = "ADT^A01")
          ∧ (length (split "|" line0) ≤ 4 → facilityId e = "FACILITY_001")))
  ∧ (let lines := Esm.splitLines (Esm.trim hl7) in
     let e := Esm.parseHL7Message run' hl7 in
     (absent "PID" lines →
        patientMRN (data e) = "MRN_UNKNOWN"
        ∧ patientName (data e) = {| family := ""; given := "" |}
        ∧ patientDOB (data e) = "" ∧ patientGender (data e) = ""
        ∧ patientId e = "MRN_UNKNOWN")
     ∧ (absent "PV1" lines →
          location (data e) = Some "" ∧ attendingPhysician (data e) = Some "")
     ∧ messageType (data e) ≠ "" ∧ facilityId e ≠ ""
     ∧ (absent "MSH" lines →
          messageType (data e) = "ADT^A01" ∧ facilityId e = "FACILITY_001"
          ∧ id e = "evt_MSG" +:+ num_to_string (Esm.dateNow run'))).
Proof.
  split.
  - intros lines. unfold Stub.parseHL7Message. fold lines.
    destruct (JsProps.split_nonempty Stub.LF hl7) as (line0 & rest & Hlines).
    fold lines in Hlines. rewrite Hlines. simpl.
    eexists. split; [reflexivity |]. simpl. rewrite <- Hlines.
    split; [| split; [| split; [| split]]].
    + intros Hpid. rewrite (stub_segment_absent _ _ Hpid). by rewrite !JsProps.at_or_nil.
    + intros Hpv1. rewrite (stub_segment_absent _ _ Hpv1). by rewrite !JsProps.at_or_nil.
    + by apply at_or_nonempty.
    + by apply at_or_nonempty.
    + intros l0 r0. rewrite Hlines. intros [= <- <-]. split; apply at_or_short.
  - intros lines e. unfold e, Esm.parseHL7Message. fold lines. simpl.
    split; [| split; [| split; [| split]]].
    + intros Hpid. rewrite (esm_segment_absent _ _ Hpid). by rewrite !at_or_blank.
    + intros Hpv1. rewrite (esm_segment_absent _ _ Hpv1). by rewrite !at_or_blank.
    + by apply at_or_nonempty.
    + by apply at_or_nonempty.
    + intros Hmsh. rewrite (esm_segment_absent _ _ Hmsh). by rewrite !at_or_blank.
Qed.

Lemma normalizer_tolerates_missing_segments_witness :
  ∃ e, Stub.parseHL7Message stubRun1 mshOnly = Some e
    ∧ patientMRN (data e) = ""
    ∧ patientName (data e) = {| family := ""; given := "" |}
    ∧ patientId e = "unknown"
    ∧ location (data e) = Some ""
    ∧ patientMRN (data (Esm.parseHL7Message esmRun1 mshOnly)) = "MRN_UNKNOWN"
    ∧ location (data (Esm.parseHL7Message esmRun1 mshOnly)) = Some "".
Proof.
  destruct (normalizer_tolerates_missing_segments stubRun1 esmRun1 mshOnly)
    as [(e & He & Hpid & Hpv1 & _) (Hpid' & Hpv1' & _)].
  exists e. split; [exact He |].
  destruct (Hpid eq_refl) as (-> & -> & _ & _ & ->).
  destruct (Hpv1 eq_refl) as (-> & _).
  destruct (Hpid' eq_refl) as (-> & _).
  destruct (Hpv1' eq_refl) as (-> & _).
  repeat split.
Defined.

End NormalizerProps.

(** ** The eval harness *)

Module EvalProps.
Import Js Eval EvalSpec.

Lemma matchLiteral_spec pat : ∀ s rest,
  matchLiteral pat s = Some rest ↔ ∃ pre, s = pre +:+ rest ∧ upper pre = upper pat.
Proof.
  induction pat as [| p pat IH]; intros s rest; simpl.
  - split.
    + intros [= ->]. by exists "".
    + intros (pre & -> & Hpre). by destruct pre.
  - destruct s as [| c s].
    + split; [done |]. intros (pre & Hs & Hpre). destruct pre; discriminate.
    + destruct (Ascii.eqb_spec (canonicalize p) (canonicalize c)) as [Hpc | Hpc].
      * rewrite IH. split.
        -- intros (pre & -> & Hpre). exists (String c pre). simpl. by rewrite Hpre, Hpc.
        -- intros (pre & Hs & Hpre). destruct pre as [| c' pre]; [discriminate |].
           simpl in Hs, Hpre. injection Hs as -> ->. injection Hpre as _ Hpre.
           by exists pre.
      * split; [done |]. intros (pre & Hs & Hpre).
        destruct pre as [| c' pre]; [discriminate |].
        simpl in Hs, Hpre. injection Hs as -> ->. injection Hpre as Hc _. congruence.
Qed.

(** What the regular expression accepts, and what it captures. *)
Lemma matchContains_spec rule needle :
  matchContains rule = Some needle ↔
  ∃ prefix, rule = prefix +:+ needle ∧ upper prefix = "CONTAINS:"
            ∧ needle ≠ "" ∧ allDot needle = true.
Proof.
  unfold matchContains.
  destruct (matchLiteral "contains:" rule) as [rest |] eqn:E.
  - apply matchLiteral_spec in E as (pre & -> & Hpre).
    destruct (truthy rest && allDot rest) eqn:Hok.
    + apply andb_true_iff in Hok as [Ht Hd]. apply JsProps.truthy_spec in Ht. split.
      * intros [= <-]. by exists pre.
      * intros (prefix & Heq & Hprefix & _ & _).
        assert (matchLiteral "contains:" (pre +:+ rest) = Some needle) as Hm.
        { apply matchLiteral_spec. by exists prefix. }
        assert (matchLiteral "contains:" (pre +:+ rest) = Some rest) as Hm'.
        { apply matchLiteral_spec. by exists pre. }
        congruence.
    + split; [done |]. intros (prefix & Heq & Hprefix & Hne & Hdot).
      assert (matchLiteral "contains:" (pre +:+ rest) = Some needle) as Hm.
      { apply matchLiteral_spec. by exists prefix. }
      assert (matchLiteral "contains:" (pre +:+ rest) = Some rest) as Hm'.
      { apply matchLiteral_spec. by exists pre. }
      assert (rest = needle) as -> by congruence.
      apply JsProps.truthy_spec in Hne. by rewrite Hne, Hdot in Hok.
  - split; [done |]. intros (prefix & -> & Hprefix & _).
    assert (matchLiteral "contains:" (prefix +:+ needle) = Some needle) as Hm.
    { apply matchLiteral_spec. by exists prefix. }
    congruence.
Qed.

Lemma matchContains_wellFormed rule needle :
  matchContains rule = Some needle → wellFormed rule.
Proof.
  intros (prefix & -> & Hp & Hne & _)%matchContains_spec. by exists prefix, needle.
Qed.

(** C10.  A rule that is not of the shape [contains:<non-empty suffix>]
    (prefix in any letter case) evaluates to false on every payload, and
    [evaluateRule] returns in every case; a task with such a rule passes
    exactly when it expects false. *)
Theorem malformed_rule_is_false (rule : string) :
  ¬ wellFormed rule →
  ∀ payload,
    evaluateRule rule payload = false
    ∧ ∀ t, Eval.rule t = rule →
        ok payload t = negb (expect t)
        ∧ (PASS (main [t] payload), FAIL (main [t] payload))
            = if expect t then (0, 1) else (1, 0).
Proof.
  intros Hmal payload.
  assert (Hfalse : evaluateRule rule payload = false).
  { unfold evaluateRule. destruct (matchContains rule) as [needle |] eqn:E; [| done].
    exfalso. apply Hmal. by eapply matchContains_wellFormed. }
  split; [exact Hfalse |].
  intros t Ht. unfold main, ok. simpl. unfold iteration. rewrite Ht, Hfalse.
  by destruct (expect t).
Qed.

Lemma malformed_rule_is_false_witness :
  evaluateRule "includes:HL7" "HL7 ADT sample" = false
  ∧ (PASS (main [mkTask "negative" "includes:HL7" false] "HL7 ADT sample"),
     FAIL (main [mkTask "negative" "includes:HL7" false] "HL7 ADT sample")) = (1, 0).
Proof.
  assert (Hmal : ¬ wellFormed "includes:HL7").
  { intros (prefix & suffix & Heq & Hp & _).
    destruct prefix as [| c prefix]; [discriminate Hp |].
    simpl in Heq, Hp. injection Heq as <- _. vm_compute in Hp. discriminate Hp. }
  destruct (malformed_rule_is_false "includes:HL7" Hmal "HL7 ADT sample") as [Hf Ht].
  split; [exact Hf |].
  exact (proj2 (Ht (mkTask "negative" "includes:HL7" false) eq_refl)).
Defined.

Lemma ok_agrees payload t : ok payload t = true ↔ agrees payload t.
Proof. unfold ok, agrees. apply eqb_true_iff. Qed.

Lemma iteration_counts payload acc t :
  pass (iteration payload acc t) = pass acc + (if ok payload t then 1 else 0)
  ∧ fail (iteration payload acc t) = fail acc + (if ok payload t then 0 else 1).
Proof.
  unfold iteration. fold (ok payload t). destruct (ok payload t); simpl; lia.
Qed.

Lemma loop_counts payload tasks : ∀ acc,
  let acc' := fold_left (iteration payload) tasks acc in
  pass acc' = pass acc + length (filter (agrees payload) tasks)
  ∧ fail acc' = fail acc + length (filter (λ t, ¬ agrees payload t) tasks).
Proof.
  induction tasks as [| t tasks IH]; intros acc; simpl.
  - lia.
  - destruct (IH (iteration payload acc t)) as [IHp IHf]. rewrite IHp, IHf.
    destruct (iteration_counts payload acc t) as [-> ->].
    rewrite !filter_cons.
    destruct (ok payload t) eqn:E.
    + apply ok_agrees in E. rewrite decide_True, decide_False by tauto. simpl. lia.
    + assert (¬ agrees payload t) as Hn by (rewrite <- ok_agrees; congruence).
      rewrite decide_False, decide_True by tauto. simpl. lia.
Qed.

Lemma filter_split payload tasks :
  length (filter (agrees payload) tasks)
  + length (filter (λ t, ¬ agrees payload t) tasks) = length tasks.
Proof.
  induction tasks as [| t tasks IH]; [done |]. rewrite !filter_cons.
  destruct (decide (agrees payload t)).
  - rewrite decide_False by tauto. simpl. lia.
  - rewrite decide_True by tauto. simpl. lia.
Qed.

Lemma filter_nonempty payload tasks :
  0 < length (filter (λ t, ¬ agrees payload t) tasks)
  ↔ ∃ t, t ∈ tasks ∧ ¬ agrees payload t.
Proof.
  split.
  - destruct (filter _ tasks) as [| t l] eqn:E; simpl; [lia |]. intros _.
    assert (t ∈ filter (λ t, ¬ agrees payload t) tasks) as Hin by (rewrite E; left).
    apply list_elem_of_filter in Hin as [Hn Hin]. eauto.
  - intros (t & Hin & Hn).
    assert (t ∈ filter (λ t, ¬ agrees payload t) tasks) as Hin'
      by (by apply list_elem_of_filter).
    destruct (filter _ tasks); simpl; [by apply elem_of_nil in Hin' | lia].
Qed.

(** C8.  For every list of tasks and every payload, [PASS] is the number
    of tasks whose rule evaluates to what the task expects, [FAIL] is the
    number of the others, and [rollback] is true exactly when some task
    fails.  In particular two tasks expecting true, the first evaluating
    to true and the second to false, give PASS=1 FAIL=1 rollback=true (the
    summary line says so), and when every task agrees with its expectation
    [rollback] is false. *)
Theorem eval_harness_report (tasks : list Task) (payload : string) :
  let r := main tasks payload in
  PASS r = length (filter (agrees payload) tasks)
  ∧ FAIL r = length (filter (λ t, ¬ agrees payload t) tasks)
  ∧ PASS r + FAIL r = length tasks
  ∧ (rollback r = true ↔ ∃ t, t ∈ tasks ∧ ¬ agrees payload t)
  ∧ (∀ t1 t2, tasks = [t1; t2] →
       expect t1 = true → evaluateRule (rule t1) payload = true →
       expect t2 = true → evaluateRule (rule t2) payload = false →
       PASS r = 1 ∧ FAIL r = 1 ∧ rollback r = true
       ∧ last (lines r) = Some "Summary: PASS=1 FAIL=1 rollback=true")
  ∧ ((∀ t, t ∈ tasks → agrees payload t) → FAIL r = 0 ∧ rollback r = false).
Proof.
  intros r.
  destruct (loop_counts payload tasks {| pass := 0; fail := 0; out := [] |}) as [Hp Hf].
  simpl in Hp, Hf.
  assert (HP : PASS r = length (filter (agrees payload) tasks)) by exact Hp.
  assert (HF : FAIL r = length (filter (λ t, ¬ agrees payload t) tasks)) by exact Hf.
  assert (HR : rollback r = true ↔ ∃ t, t ∈ tasks ∧ ¬ agrees payload t).
  { rewrite <- filter_nonempty, <- HF. unfold r, main. simpl. apply Nat.ltb_lt. }
  split; [exact HP |]. split; [exact HF |].
  split; [rewrite HP, HF; apply filter_split |].
  split; [exact HR |]. split.
  - intros t1 t2 -> E1 A1 E2 A2. unfold r, main, iteration. simpl.
    rewrite E1, A1, E2, A2. simpl. done.
  - intros Hall.
    assert (Hnone : ¬ ∃ t, t ∈ tasks ∧ ¬ agrees payload t).
    { intros (t & Hin & Hn). apply Hn, Hall, Hin. }
    split.
    + destruct (FAIL r) eqn:E; [done |]. exfalso. apply Hnone, filter_nonempty.
      rewrite <- HF. lia.
    + apply not_true_is_false. by rewrite HR.
Qed.

(** The rollback demonstration of the README: the second task fails. *)
Lemma eval_harness_report_witness :
  let r := main [ mkTask "Medication reconciliation" "contains:HL7" true;
                  mkTask "Discharge summary extraction" "contains:DISCHARGE" true ]
                "HL7 ADT sample" in
  PASS r = 1 ∧ FAIL r = 1 ∧ rollback r = true
  ∧ last (lines r) = Some "Summary: PASS=1 FAIL=1 rollback=true".
Proof.
  intros r.
  destruct (eval_harness_report
              [ mkTask "Medication reconciliation" "contains:HL7" true;
                mkTask "Discharge summary extraction" "contains:DISCHARGE" true ]
              "HL7 ADT sample") as (_ & _ & _ & _ & Hdemo & _).
  apply (Hdemo _ _ eq_refl); reflexivity.
Defined.

End EvalProps.

(** ** The definitions at work on concrete inputs *)

Module Examples.
Import Js Event.

Example split_fields : split "|" "PID|1||MRN1" = ["PID"; "1"; ""; "MRN1"].
Proof. reflexivity. Qed.

Example split_empty : split "|" "" = [""].
Proof. reflexivity. Qed.

Example includes_empty_needle : includes "ADT" "" = true.
Proof. reflexivity. Qed.

Example queue_session :
  let st1 := snd (Queue.enqueue QueueSpec.item_a Queue.init) in
  let st2 := snd (Queue.dequeue st1) in
  Queue.size st1 = 1 ∧ Queue.size st2 = 0
  ∧ fst (Queue.enqueue QueueSpec.item_a st2) = false
  ∧ fst (Queue.enqueue QueueSpec.item_b st2) = true.
Proof. vm_compute. done. Qed.

Example counters_after_two_incs :
  let h := MetricsSpec.run [MetricsSpec.CallInc "processed"; MetricsSpec.CallInc "processed"] Metrics.init in
  MetricsSpec.read h Metrics.countersRef "processed" = Some (Metrics.VNum 2)
  ∧ MetricsSpec.read h Metrics.countersRef "pass" = None.
Proof. vm_compute. done. Qed.

Example snapshot_is_not_live :
  let '(snap, h1) := Metrics.snapshot (Metrics.inc "processed" Metrics.init) in
  let h2 := Metrics.inc "processed" h1 in
  MetricsSpec.read h2 snap "processed" = Some (Metrics.VNum 1)
  ∧ MetricsSpec.read h2 Metrics.countersRef "processed" = Some (Metrics.VNum 2).
Proof. vm_compute. done. Qed.

Example add1_saturates : Metrics.add1 (2 ^ 53) = (2 ^ 53)%Z.
Proof. reflexivity. Qed.

Example inc_constructor :
  MetricsSpec.read (Metrics.inc "constructor" Metrics.init) Metrics.countersRef "constructor"
  = Some (Metrics.VStr "function Object() { [native code] }1").
Proof. vm_compute. reflexivity. Qed.

Example payload_without_data_stops_the_loop :
  let r := Agent.processAll AgentSpec.noConversion
             [AgentSpec.noData; Agent.ofEvent PolicySpec.goodEvent]
             (Agent.start Metrics.init) in
  (∃ w, r = Agent.Thrown w "TypeError")
  ∧ Agent.metrics (Agent.world r) = Orchestrator.mkMetrics 0 0 0 0
  ∧ Agent.counters (Agent.world r) = Metrics.init.
Proof. vm_compute. split; [eexists; reflexivity | done]. Qed.

Example stub_on_sample :
  Hl7IngestStub.parseHL7Message NormalizerSpec.stubRun1 Hl7IngestStub.sampleHL7Message
  = Some {|
      id := "evt_1691924880000_k3x9q2m1a";
      type := admission;
      patientId := "MRN123456^^^HOSPITAL^MR";
      facilityId := "RECEIVING_APP";
      timestamp := "2023-08-13T11:08:00.000Z";
      data := {|
        messageType := "ADT^A01";
        patientMRN := "MRN123456^^^HOSPITAL^MR";
        patientName := {| family := "DOE"; given := "JOHN" |};
        patientDOB := "19800101";
        patientGender := "M";
        location := Some "ICU^101^01";
        attendingPhysician := Some "12345^SMITH^JANE^M^^^DR"
      |};
      metadata := {|
        originalHL7 := Hl7IngestStub.sampleHL7Message;
        processedAt := "2023-08-13T11:08:00.000Z";
        source := "hl7-ingest"
      |}
    |}.
Proof. vm_compute. reflexivity. Qed.

Example esm_on_sample :
  let e := Hl7Ingest.parseHL7Message NormalizerSpec.esmRun1 Hl7IngestStub.sampleHL7Message in
  id e = "evt_MSG123456" ∧ type e = admission ∧ facilityId e = "RECEIVING_APP"
  ∧ patientName (data e) = {| family := "DOE"; given := "JOHN" |}.
Proof. vm_compute. done. Qed.

Example esm_splits_crlf :
  Hl7Ingest.splitLines ("MSH|a" +:+ String Hl7Ingest.CR (String Hl7Ingest.LF "PID|b"))
  = ["MSH|a"; "PID|b"].
Proof. reflexivity. Qed.

Example esm_trims : Hl7Ingest.trim (String Hl7Ingest.LF " MSH|a  ") = "MSH|a".
Proof. reflexivity. Qed.

Example stub_reads_any_first_line :
  (messageType ∘ data) <$>
    Hl7IngestStub.parseHL7Message NormalizerSpec.stubRun1 "PID|1||MRN1||DOE^JOHN||19800101|M"
  = Some "M".
Proof. reflexivity. Qed.

Example gate_on_sample_event :
  Orchestrator.validateEventPolicy PolicySpec.goodEvent
  = ([["[Agent] Validating policy for event:"; "evt_12345_sample1"]],
     PolicySpec.allow 3).
Proof. reflexivity. Qed.

Example gate_bad_facility_only :
  let event := {| id := "evt_2"; type := admission; patientId := "MRN1";
                  facilityId := "RECEIVING_APP"; timestamp := "";
                  data := data PolicySpec.goodEvent;
                  metadata := metadata PolicySpec.goodEvent |} in
  Orchestrator.reason (snd (Orchestrator.validateEventPolicy event))
  = "Facility not in whitelist".
Proof. reflexivity. Qed.

Example rule_any_case : Eval.evaluateRule "Contains:HL7" "an HL7 message" = true.
Proof. reflexivity. Qed.

Example rule_without_suffix : Eval.matchContains "contains:" = None.
Proof. reflexivity. Qed.

Example rule_with_line_break :
  Eval.matchContains ("contains:HL7" +:+ String (ascii_of_nat 10) "") = None.
Proof. reflexivity. Qed.

Example rule_not_anchored_left : Eval.matchContains " contains:HL7" = None.
Proof. reflexivity. Qed.

Example green_path :
  Eval.lines (Eval.main [ Eval.mkTask "Medication reconciliation" "contains:HL7" true;
                          Eval.mkTask "Discharge summary extraction" "contains:DISCHARGE" true ]
                        "HL7 DISCHARGE sample")
  = [ "Task: Medication reconciliation (rule=contains:HL7, expect=true) => PASS";
      "Task: Discharge summary extraction (rule=contains:DISCHARGE, expect=true) => PASS";
      "Summary: PASS=2 FAIL=0 rollback=false" ].
Proof. vm_compute. reflexivity. Qed.

End Examples.

(** * Further properties of the code *)

(** ** The queue: what is waiting, what was accepted, what was handed out *)

Module QueueHistoryProps.
Import Queue QueueSpec HistorySpec.

Section WithPayload.
Context {Payload : Type}.
Implicit Types (st : State Payload) (item : QueueItem Payload).
Implicit Types (calls : list (Call Payload)).

Lemma consistent_init : consistent (@init Payload).
Proof. split; [constructor | intros it Hin; by apply elem_of_nil in Hin]. Qed.

Lemma consistent_step st (c : Call Payload) : consistent st → consistent (step st c).
Proof.
  intros [Hnd Hin]. pose proof Hin as Hin'. destruct c as [item | | ]; simpl; [| | done].
  - unfold enqueue. destruct (decide (id item ∈ seen st)) as [Hs | Hs]; [done |].
    split; cbn [snd q seen].
    + rewrite fmap_app. apply NoDup_app. split; [done |]. split.
      * intros x Hx Hx'. apply list_elem_of_singleton in Hx'. subst x.
        apply list_elem_of_fmap in Hx as (it & Heq & Hit). apply Hs. rewrite Heq. by apply Hin.
      * simpl. apply NoDup_singleton.
    + intros it [Hit | Hit]%elem_of_app.
      * apply elem_of_union_r. by apply Hin.
      * apply list_elem_of_singleton in Hit. subst it. apply elem_of_union_l.
        by apply elem_of_singleton.
  - unfold dequeue. destruct (q st) as [| x rest] eqn:E.
    { unfold consistent. cbn [snd]. rewrite E. by split. }
    split; cbn [snd q seen].
    + rewrite fmap_cons in Hnd. by apply NoDup_cons in Hnd as [_ Hnd].
    + intros it Hit. apply Hin. by right.
Qed.

Lemma consistent_run calls : ∀ st, consistent st → consistent (run calls st).
Proof.
  induction calls as [| c calls IH]; intros st Hc; simpl; [done |].
  apply IH. by apply consistent_step.
Qed.

Lemma consistent_size st : consistent st → size st ≤ base.size (seen st).
Proof.
  intros [Hnd Hin]. unfold size. rewrite <- (length_fmap id).
  rewrite <- (size_list_to_set (C := gset string) (id <$> q st)) by done.
  apply subseteq_size. intros x Hx. apply elem_of_list_to_set in Hx.
  apply list_elem_of_fmap in Hx as (it & -> & Hit). by apply Hin.
Qed.

(** X1.  Whatever calls were made since the module was loaded, no two
    waiting items have the same id, the id of every waiting item is in the
    dedup record, and so the queue is never longer than the number of ids
    seen. *)
Theorem queue_ids_distinct calls :
  let st := run calls init in
  NoDup (id <$> q st)
  ∧ Forall (λ it, id it ∈ seen st) (q st)
  ∧ size st ≤ base.size (seen st).
Proof.
  intros st. pose proof (consistent_run calls init consistent_init) as Hc.
  fold st in Hc. destruct Hc as [Hnd Hin].
  split; [done |]. split; [by apply Forall_forall |]. by apply consistent_size.
Qed.

Lemma conservation calls : ∀ st,
  q st ++ accepted calls st = handedOut calls st ++ q (run calls st).
Proof.
  induction calls as [| c calls IH]; intros st; simpl.
  - by rewrite app_nil_r.
  - specialize (IH (step st c)). destruct c as [item | | ]; simpl in *.
    + unfold enqueue in *. destruct (decide (id item ∈ seen st)); simpl in *.
      * exact IH.
      * rewrite <- IH. by rewrite <- app_assoc.
    + unfold dequeue in *. destruct (q st) as [| x rest] eqn:E; simpl in *.
      * by rewrite E in IH.
      * by rewrite <- IH.
    + exact IH.
Qed.

(** X2.  Nothing is lost, invented or reordered: at every moment the items
    that [enqueue] accepted so far are, in order, the items that [dequeue]
    has handed out followed by the items still waiting. *)
Theorem queue_conservation calls :
  accepted calls init = handedOut calls init ++ q (run calls (@init Payload)).
Proof. exact (conservation calls init). Qed.

End WithPayload.

End QueueHistoryProps.

(** ** Metrics: what a snapshot reports *)

Module MetricsCountProps.
Import Metrics MetricsSpec HistorySpec.

(** X3.  For a key that names no member of [Object.prototype]: a
    snapshot taken after any calls since the module was loaded holds under
    the key the number of times it was incremented (the number stops
    growing at [2^53], where [+ 1] on a double no longer changes it), and
    no entry when it never was.  The snapshot is a copy: it is another
    object than [counters], taking it leaves [counters] as it is, and
    whatever calls follow, the object returned still holds that number,
    while [counters] and a later snapshot hold the number of all the
    increments made by then. *)
Theorem snapshot_reports_increments
    (calls_before calls_after : list Call) (key : string) :
  ordinary key →
  let h0 := run calls_before init in
  let snap := fst (snapshot h0) in
  let h1 := snd (snapshot h0) in
  let h2 := run calls_after h1 in
  let snap' := fst (snapshot h2) in
  let h3 := snd (snapshot h2) in
  read h1 snap key = reported (increments key calls_before)
  ∧ snap ≠ countersRef
  ∧ h1 !! countersRef = h0 !! countersRef
  ∧ h2 !! snap = h1 !! snap
  ∧ h3 !! snap = h1 !! snap
  ∧ read h2 countersRef key = reported (increments key (calls_before ++ calls_after))
  ∧ read h3 snap' key = reported (increments key (calls_before ++ calls_after))
  ∧ snap' ≠ snap.
Proof.
  intros Hord h0 snap h1 h2 snap' h3.
  pose proof (MetricsProps.run_init_nonempty calls_before) as Hlen0. fold h0 in Hlen0.
  pose proof (MetricsProps.snapshot_fresh h0 Hlen0) as [Hr1 Hr1len].
  fold snap in Hr1, Hr1len.
  pose proof (MetricsProps.snapshot_length h0) as Hlen1. fold h1 in Hlen1.
  assert (Hpos1 : 0 < length h1) by lia.
  pose proof (MetricsProps.run_extends calls_after h1 Hpos1) as (Hpos2 & Hle12 & Hkeep12).
  fold h2 in Hpos2, Hle12, Hkeep12.
  pose proof (MetricsProps.snapshot_extends h2 Hpos2) as (Hpos3 & Hle23 & Hkeep23).
  fold h3 in Hpos3, Hle23, Hkeep23.
  pose proof (MetricsProps.snapshot_fresh h2 Hpos2) as [Hr2 Hr2len].
  fold snap' in Hr2, Hr2len.
  assert (H1 : read h1 countersRef key = reported (increments key calls_before)).
  { unfold h1. rewrite MetricsProps.read_snapshot_counters by done.
    by apply MetricsProps.read_run_init. }
  assert (H2 : read h2 countersRef key
               = reported (increments key (calls_before ++ calls_after))).
  { rewrite MetricsProps.increments_app.
    by apply (MetricsProps.read_run key calls_after Hord h1). }
  split.
  { unfold h1, snap. rewrite MetricsProps.snapshot_read by done.
    by apply MetricsProps.read_run_init. }
  split; [exact Hr1 |].
  split; [by apply MetricsProps.snapshot_counters |].
  split; [apply Hkeep12; [done | lia] |].
  split; [rewrite Hkeep23 by (done || lia); apply Hkeep12; [done | lia] |].
  split; [exact H2 |].
  split; [| lia].
  unfold h3, snap'. by rewrite MetricsProps.snapshot_read.
Qed.

Lemma snapshot_reports_increments_witness :
  let calls_before := [CallInc "processed"; CallInc "pass"; CallInc "processed"] in
  let calls_after := [CallInc "processed"; CallSnapshot] in
  let '(snap, h1) := snapshot (run calls_before init) in
  let h2 := run calls_after h1 in
  read h1 snap "processed" = Some (VNum 2)
  ∧ read h2 snap "processed" = Some (VNum 2)
  ∧ read h2 countersRef "processed" = Some (VNum 3).
Proof.
  pose proof (snapshot_reports_increments
                [CallInc "processed"; CallInc "pass"; CallInc "processed"]
                [CallInc "processed"; CallSnapshot] "processed") as H.
  destruct H as (H1 & _ & _ & H4 & _ & H6 & _).
  { apply (bool_decide_unpack _). vm_compute. reflexivity. }
  cbn zeta.
  destruct (snapshot (run [CallInc "processed"; CallInc "pass"; CallInc "processed"] init))
    as [snap h1] eqn:E.
  simpl fst in *. simpl snd in *.
  split; [exact H1 |]. split; [| exact H6].
  unfold read in *. rewrite H4. exact H1.
Defined.

End MetricsCountProps.

(** ** The eval harness: what a well-formed rule tests *)

Module EvalRuleProps.
Import Js Eval EvalSpec PipelineSpec FieldsSpec.

Lemma matchLiteral_prefix prefix suffix :
  upper prefix = "CONTAINS:" → matchLiteral "contains:" (prefix +:+ suffix) = Some suffix.
Proof. intros Hp. apply EvalProps.matchLiteral_spec. by exists prefix. Qed.

Lemma matchContains_prefix prefix suffix :
  upper prefix = "CONTAINS:" →
  matchContains (prefix +:+ suffix)
  = if truthy suffix && allDot suffix then Some suffix else None.
Proof. intros Hp. unfold matchContains. by rewrite (matchLiteral_prefix _ _ Hp). Qed.

Lemma isLineTerminator_spec c :
  isLineTerminator c = Ascii.eqb c Hl7Ingest.LF || Ascii.eqb c Hl7Ingest.CR.
Proof. by destruct c as [[] [] [] [] [] [] [] []]. Qed.

Lemma allDot_lacks s :
  allDot s = lacks Hl7Ingest.LF s && lacks Hl7Ingest.CR s.
Proof.
  induction s as [| c s IH]; [done |]. cbn [allDot lacks].
  rewrite IH, isLineTerminator_spec.
  destruct (Ascii.eqb c Hl7Ingest.LF), (Ascii.eqb c Hl7Ingest.CR); simpl; try done.
  by rewrite andb_false_r.
Qed.

(** X4.  On strings of 8-bit code units: a rule [contains:<suffix>], the
    prefix in any letter case, evaluates to true exactly when the suffix is
    not empty, contains neither a line feed nor a carriage return, and
    occurs in the payload as a substring (compared code unit by code unit:
    only the prefix is case-insensitive).  In particular a suffix with a
    line feed or a carriage return makes the rule false even on a payload
    that contains the suffix.  (Of the line terminators that [.] refuses,
    these two are code units below 256; the other two, U+2028 and U+2029,
    are not.) *)
Theorem rule_is_substring_test (prefix suffix payload : string) :
  upper prefix = "CONTAINS:" →
  (evaluateRule (prefix +:+ suffix) payload = true
   ↔ suffix ≠ ""
     ∧ lacks Hl7Ingest.LF suffix = true
     ∧ lacks Hl7Ingest.CR suffix = true
     ∧ occursIn suffix payload).
Proof.
  intros Hp. unfold evaluateRule. rewrite (matchContains_prefix _ _ Hp), allDot_lacks.
  destruct (truthy suffix) eqn:Ht; simpl.
  - apply JsProps.truthy_spec in Ht.
    destruct (lacks Hl7Ingest.LF suffix) eqn:Hlf, (lacks Hl7Ingest.CR suffix) eqn:Hcr;
      simpl.
    + rewrite JsProps.includes_spec. unfold occursIn. tauto.
    + split; [done | intros (_ & _ & ? & _); done].
    + split; [done | intros (_ & ? & _); done].
    + split; [done | intros (_ & ? & _); done].
  - split; [done |]. intros (Hne & _). apply JsProps.truthy_spec in Hne. congruence.
Qed.

Lemma rule_is_substring_test_witness :
  evaluateRule "Contains:ADT^A01" Hl7IngestStub.sampleHL7Message = true
  ∧ evaluateRule "contains:adt^a01" Hl7IngestStub.sampleHL7Message = false
  ∧ evaluateRule ("contains:2.5" +:+ String Hl7Ingest.LF "PID")
                 Hl7IngestStub.sampleHL7Message = false.
Proof.
  split; [| split].
  - apply (rule_is_substring_test "Contains:" "ADT^A01" Hl7IngestStub.sampleHL7Message eq_refl).
    split; [done |]. split; [reflexivity |]. split; [reflexivity |].
    apply JsProps.includes_spec. vm_compute. reflexivity.
  - apply not_true_is_false.
    intros H%(rule_is_substring_test "contains:" "adt^a01" Hl7IngestStub.sampleHL7Message eq_refl).
    destruct H as (_ & _ & _ & Hocc). apply JsProps.includes_spec in Hocc.
    vm_compute in Hocc. discriminate Hocc.
  - apply not_true_is_false.
    intros H%(rule_is_substring_test "contains:" ("2.5" +:+ String Hl7Ingest.LF "PID")
                Hl7IngestStub.sampleHL7Message eq_refl).
    destruct H as (_ & Hlf & _). vm_compute in Hlf. discriminate Hlf.
Defined.

End EvalRuleProps.

(** ** The policy gate: the decision *)

Module PolicyDecisionProps.
Import Js Event Orchestrator PolicySpec PipelineSpec.

Lemma allowed_formula event :
  allowed (snd (validateEventPolicy event))
  = truthy (patientMRN (data event))
    && includes (messageType (data event)) "ADT"
    && whitelisted (facilityId event).
Proof.
  unfold validateEventPolicy, policies, whitelisted. simpl.
  destruct (patientMRN (data event)) as [| c mrn]; simpl; [done |].
  destruct (messageType (data event)) as [| d ty] eqn:Ety; simpl; [done |].
  rewrite orb_false_r.
  destruct (_ || includes ty "ADT"); simpl; [| done].
  by destruct (_ || _).
Qed.

Lemma result_shape event :
  snd (validateEventPolicy event) = allow 3
  ∨ ∃ p, p ∈ policies ∧ snd (validateEventPolicy event) = deny p.
Proof.
  unfold validateEventPolicy.
  destruct (firstViolation policies event) as [p |] eqn:E; [right | by left].
  exists p. split; [| done].
  clear -E. induction policies as [| a ps IH]; [done |]. simpl in E.
  destruct (negb (Policy.check a event)); [injection E as ->; by left |].
  right. by apply IH.
Qed.

(** X5.  The gate admits an event exactly when its MRN is not empty, its
    message type contains [ADT] and its facility is [FACILITY_001] or
    [FACILITY_002]; the result is either the admission reporting three
    policies checked or the denial of one of the three policies. *)
Theorem gate_decision (event : NormalizedEvent) :
  (allowed (snd (validateEventPolicy event)) = true
   ↔ patientMRN (data event) ≠ ""
     ∧ occursIn "ADT" (messageType (data event))
     ∧ (facilityId event = "FACILITY_001" ∨ facilityId event = "FACILITY_002"))
  ∧ (snd (validateEventPolicy event) = allow 3
     ∨ ∃ p, p ∈ policies ∧ snd (validateEventPolicy event) = deny p).
Proof.
  split; [| apply result_shape].
  rewrite allowed_formula, !andb_true_iff, JsProps.truthy_spec, JsProps.includes_spec.
  unfold whitelisted, occursIn. rewrite orb_true_iff, !String.eqb_eq. tauto.
Qed.

End PolicyDecisionProps.

(** ** The orchestrator: invariants of the tallies *)

Module TallyProps.
Import Js Event Orchestrator Json Agent AgentSpec HistorySpec.

(** X6.  Whatever the payloads of a batch, every event that the loop gets
    to ends in exactly one of success and error: the two counts grow
    together by the number of these events, as [eventsProcessed] does, and
    violations are among the errors.  The loop gets to the events before
    the first payload whose [data.patientName] cannot be read (the event,
    its [data] or its [data.patientName] is [undefined] or [null]): on that
    one [processEvent] throws before its [try] statement, nothing is
    tallied for it, and the loop is left.  It returns exactly when there is
    no such payload, and then every event of the batch is tallied.  A run
    that starts from zero ends, or is left, with
    [eventsProcessed = successCount + errorCount] and
    [policyViolations ≤ errorCount]. *)
Theorem tallies_add_up
    (convertedAboveZero : Json.t -> Completion bool)
    (events : list Json.t) (w : World) (h : Metrics.Heap) :
  let m := metrics w in
  let m' := metrics (world (processAll convertedAboveZero events w)) in
  let m0 := metrics (world (processAll convertedAboveZero events (start h))) in
  successCount m' + errorCount m'
    = successCount m + errorCount m + length (reached events)
  ∧ eventsProcessed m' = eventsProcessed m + length (reached events)
  ∧ policyViolations m' - policyViolations m ≤ errorCount m' - errorCount m
  ∧ eventsProcessed m0 = length (reached events)
  ∧ eventsProcessed m0 = successCount m0 + errorCount m0
  ∧ policyViolations m0 ≤ errorCount m0
  ∧ ((∃ w', processAll convertedAboveZero events w = Returned w')
     ↔ Forall (λ ev, loggable ev = true) events)
  ∧ (Forall (λ ev, loggable ev = true) events → reached events = events).
Proof.
  intros m m' m0.
  pose proof (OrchestratorProps.processAll_reached convertedAboveZero events w)
    as (T1 & T2 & T3 & T4 & _).
  pose proof (OrchestratorProps.processAll_reached convertedAboveZero events (start h))
    as (S1 & S2 & S3 & S4 & _).
  pose proof (OrchestratorProps.one_outcome convertedAboveZero (reached events)) as Hone.
  fold m m' in T1, T2, T3, T4. fold m0 in S1, S2, S3, S4. simpl in S1, S2, S3, S4.
  repeat split; try lia.
  - intros Hret. apply OrchestratorProps.reached_all.
    by apply (OrchestratorProps.processAll_returns convertedAboveZero events w).
  - intros Hall. apply (OrchestratorProps.processAll_returns convertedAboveZero events w).
    by apply OrchestratorProps.reached_all.
  - apply OrchestratorProps.reached_all.
Qed.

(** X7.  In a run that starts with fresh counters, the [processed] counter
    of metrics.ts holds the number of events that the loop got to, which
    is what [eventsProcessed] holds (the counter would stop at [2^53],
    beyond the length of any array), whether the loop returned or was left
    by a payload whose [data.patientName] cannot be read; there is no
    entry when it got to none, and no other counter is created. *)
Theorem processed_counter_matches
    (convertedAboveZero : Json.t -> Completion bool)
    (events : list Json.t) (key : string) :
  let w' := world (processAll convertedAboveZero events (start Metrics.init)) in
  eventsProcessed (metrics w') = length (reached events)
  ∧ MetricsSpec.read (counters w') Metrics.countersRef key
    = if String.eqb key "processed"
      then MetricsSpec.reported (eventsProcessed (metrics w'))
      else None.
Proof.
  intros w'.
  pose proof (OrchestratorProps.processAll_reached convertedAboveZero events
                (start Metrics.init))
    as (T1 & _ & _ & _ & _ & T6 & _).
  fold w' in T1, T6. cbn [start metrics counters eventsProcessed Nat.add] in T1, T6.
  assert (Hinc : ∀ n, increments "processed" (replicate n (MetricsSpec.CallInc "processed"))
                 = n).
  { intros n. induction n as [| n IH]; cbn [replicate increments]; [done |].
    rewrite IH. reflexivity. }
  assert (Hord : MetricsSpec.ordinary "processed").
  { apply (bool_decide_unpack _). vm_compute. reflexivity. }
  split; [exact T1 |].
  destruct (String.eqb_spec key "processed") as [-> | Hne].
  - rewrite T6, (MetricsProps.read_run_init _ _ Hord), Hinc, T1. reflexivity.
  - rewrite T6. clear T6.
    generalize (length (reached events)). intros n.
    assert (Hrun : ∀ n h, MetricsSpec.read h Metrics.countersRef key = None →
              MetricsSpec.read
                (MetricsSpec.run (replicate n (MetricsSpec.CallInc "processed")) h)
                Metrics.countersRef key = None).
    { clear n. intros n. induction n as [| n IH]; intros h0 Hh0; [exact Hh0 |].
      simpl. apply IH. rewrite MetricsProps.read_inc_other; [exact Hh0 | congruence]. }
    apply Hrun. unfold MetricsSpec.read. simpl. apply lookup_empty.
Qed.

End TallyProps.

(** ** The stub script: its time-limited duplicate check *)

Module StubQueueProps.
Import Js Event Hl7IngestStub Hl7IngestStubQueue PipelineSpec.

Lemma parse_same_message run1 run2 hl7 e1 e2 :
  parseHL7Message run1 hl7 = Some e1 →
  parseHL7Message run2 hl7 = Some e2 →
  data e1 = data e2
  ∧ timestamp e1 = isoTimestamp run1
  ∧ timestamp e2 = isoTimestamp run2.
Proof.
  unfold parseHL7Message. destruct (split LF hl7 !! 0) as [line0 |]; simpl; [| done].
  by intros [= <-] [= <-].
Qed.

Lemma eventQueue_log line st : eventQueue (log line st) = eventQueue st.
Proof. reflexivity. Qed.

Lemma eventQueue_enqueueEvent e st : eventQueue (enqueueEvent e st) = eventQueue st ++ [e].
Proof. reflexivity. Qed.

Lemma stderr_enqueueEvent e st : stderr (enqueueEvent e st) = stderr st.
Proof. reflexivity. Qed.

Section WithDate.
Variable getTime : string -> option Z.

(** What one call does to the queue, for a message that parses to [e]. *)
Lemma processHL7Message_queue run hl7 st e :
  parseHL7Message run hl7 = Some e →
  eventQueue (processHL7Message getTime run hl7 st)
  = (if existsb (duplicates getTime e) (eventQueue st)
     then eventQueue st else eventQueue st ++ [e])
  ∧ stderr (processHL7Message getTime run hl7 st) = stderr st.
Proof.
  intros He. unfold processHL7Message. rewrite He. rewrite eventQueue_log.
  destruct (existsb (duplicates getTime e) (eventQueue st)); done.
Qed.

(** X8.  The stub script drops a message as a duplicate when an event with
    the same MRN and message type was queued less than one minute before or
    after it, going by the time stamps; after a minute the same message is
    queued again.  The event id plays no part.  So of two runs on the same
    message from the empty queue the second adds an event exactly when the
    two time stamps are at least 60000 ms apart; the error stream stays
    empty. *)
Theorem stub_duplicate_window (run1 run2 : Run) (hl7 : string) (t1 t2 : Z) :
  getTime (isoTimestamp run1) = Some t1 →
  getTime (isoTimestamp run2) = Some t2 →
  let st1 := processHL7Message getTime run1 hl7 init in
  let st2 := processHL7Message getTime run2 hl7 st1 in
  ∃ e1 e2,
    parseHL7Message run1 hl7 = Some e1
    ∧ parseHL7Message run2 hl7 = Some e2
    ∧ eventQueue st1 = [e1]
    ∧ eventQueue st2 = (if (Z.abs (t1 - t2) <? 60000)%Z then [e1] else [e1; e2])
    ∧ stderr st2 = [].
Proof.
  intros H1 H2 st1 st2.
  destruct (NormalizerProps.stub_parse_total run1 hl7) as [e1 He1].
  destruct (NormalizerProps.stub_parse_total run2 hl7) as [e2 He2].
  exists e1, e2. split; [done |]. split; [done |].
  destruct (processHL7Message_queue run1 hl7 init e1 He1) as [Q1 S1].
  destruct (processHL7Message_queue run2 hl7 st1 e2 He2) as [Q2 S2].
  fold st1 in Q1, S1, Q2, S2. fold st2 in Q2, S2. simpl in Q1, S1.
  split; [exact Q1 |]. split; [| by rewrite S2, S1].
  rewrite Q2, Q1. simpl. rewrite orb_false_r.
  destruct (parse_same_message run1 run2 hl7 e1 e2 He1 He2) as (Hd & T1 & T2).
  unfold duplicates, withinWindow. rewrite Hd, T1, T2, H1, H2, !String.eqb_refl. simpl.
  by destruct (Z.abs (t1 - t2) <? 60000)%Z.
Qed.

End WithDate.

(** One second later the sample message is a duplicate; two minutes later
    it is queued again. *)
Lemma stub_duplicate_window_witness :
  length (eventQueue (processHL7Message sampleGetTime NormalizerSpec.stubRun2 sampleHL7Message
            (processHL7Message sampleGetTime NormalizerSpec.stubRun1 sampleHL7Message init))) = 1
  ∧ length (eventQueue (processHL7Message sampleGetTime stubRun3 sampleHL7Message
              (processHL7Message sampleGetTime NormalizerSpec.stubRun1 sampleHL7Message init))) = 2.
Proof.
  split.
  - destruct (stub_duplicate_window sampleGetTime NormalizerSpec.stubRun1 NormalizerSpec.stubRun2
                sampleHL7Message 1691924880000 1691924881000 eq_refl eq_refl)
      as (e1 & e2 & _ & _ & _ & -> & _). reflexivity.
  - destruct (stub_duplicate_window sampleGetTime NormalizerSpec.stubRun1 stubRun3
                sampleHL7Message 1691924880000 1691925000000 eq_refl eq_refl)
      as (e1 & e2 & _ & _ & _ & -> & _). reflexivity.
Defined.

End StubQueueProps.

(** ** From the normaliser to the policy gate *)

Module PipelineProps.
Import Js Event Orchestrator PolicySpec PipelineSpec NormalizerSpec.

Lemma deny_mrn event :
  patientMRN (data event) = "" →
  snd (validateEventPolicy event)
  = {| allowed := false; reason := "Patient MRN is required";
       metadata := [("violatedPolicy", MStr "patient-mrn-required")] |}.
Proof. intros H. unfold validateEventPolicy. simpl. by rewrite H. Qed.

Lemma stub_patient run hl7 e :
  Stub.parseHL7Message run hl7 = Some e →
  patientId e = (if truthy (patientMRN (data e)) then patientMRN (data e) else "unknown").
Proof.
  unfold Stub.parseHL7Message. destruct (split Stub.LF hl7 !! 0) as [line0 |]; simpl; [| done].
  intros [= <-]. simpl. unfold at_or.
  destruct (Stub.segment "PID" (split Stub.LF hl7) !! 3) as [s |]; [| done].
  by destruct s.
Qed.

(** X9.  An event of the stub parser carries its MRN as patient id, or
    ['unknown'] when the MRN is empty; a message without a PID line is
    normalised into an event that the gate denies with "Patient MRN is
    required", whatever its message type and facility. *)
Theorem stub_event_without_pid_is_denied (run : Stub.Run) (hl7 : string) e :
  Stub.parseHL7Message run hl7 = Some e →
  patientId e = (if truthy (patientMRN (data e)) then patientMRN (data e) else "unknown")
  ∧ (absent "PID" (split Stub.LF hl7) →
     patientId e = "unknown"
     ∧ snd (validateEventPolicy e)
       = {| allowed := false; reason := "Patient MRN is required";
            metadata := [("violatedPolicy", MStr "patient-mrn-required")] |}).
Proof.
  intros He. pose proof (stub_patient run hl7 e He) as Hid. split; [exact Hid |].
  intros Hpid.
  assert (Hmrn : patientMRN (data e) = "").
  { revert He. unfold Stub.parseHL7Message.
    destruct (split Stub.LF hl7 !! 0) as [line0 |]; simpl; [| done].
    intros [= <-]. simpl. rewrite (NormalizerProps.stub_segment_absent _ _ Hpid).
    apply JsProps.at_or_nil. }
  split; [by rewrite Hid, Hmrn | by apply deny_mrn].
Qed.

Lemma stub_event_without_pid_is_denied_witness :
  ∃ e, Stub.parseHL7Message stubRun1 mshOnly = Some e
    ∧ patientId e = "unknown"
    ∧ reason (snd (validateEventPolicy e)) = "Patient MRN is required".
Proof.
  eexists. split; [reflexivity |].
  destruct (stub_event_without_pid_is_denied stubRun1 mshOnly _ eq_refl) as [_ H].
  destruct (H eq_refl) as [H1 H2]. split; [exact H1 |].
  exact (f_equal reason H2).
Defined.

Lemma reason_not_mrn event :
  patientMRN (data event) ≠ "" →
  reason (snd (validateEventPolicy event)) ≠ "Patient MRN is required".
Proof.
  intros Hmrn. unfold validateEventPolicy, policies. simpl.
  destruct (patientMRN (data event)); [done |]. simpl.
  destruct (negb _); simpl; [discriminate |].
  destruct (negb _); simpl; discriminate.
Qed.

Lemma esm_mrn_nonempty run hl7 :
  patientMRN (data (Esm.parseHL7Message run hl7)) ≠ "".
Proof. by apply NormalizerProps.at_or_nonempty. Qed.

(** X10.  An event of the ESM parser has the same, non-empty value as
    patient id and MRN, so the gate never denies it for a missing MRN: it
    is admitted exactly when its message type contains [ADT] and its
    facility is on the whitelist.  A message with no MSH line, the empty
    message included, is normalised with the defaults and admitted. *)
Theorem esm_event_at_the_gate (run : Esm.Run) (hl7 : string) :
  let e := Esm.parseHL7Message run hl7 in
  let r := snd (validateEventPolicy e) in
  patientId e = patientMRN (data e)
  ∧ patientMRN (data e) ≠ ""
  ∧ reason r ≠ "Patient MRN is required"
  ∧ allowed r = includes (messageType (data e)) "ADT" && whitelisted (facilityId e)
  ∧ (absent "MSH" (Esm.splitLines (Esm.trim hl7)) → allowed r = true).
Proof.
  intros e r. pose proof (esm_mrn_nonempty run hl7) as Hmrn. fold e in Hmrn.
  assert (Hallowed : allowed r = includes (messageType (data e)) "ADT"
                                 && whitelisted (facilityId e)).
  { unfold r. rewrite PolicyDecisionProps.allowed_formula.
    apply JsProps.truthy_spec in Hmrn. by rewrite Hmrn. }
  split; [reflexivity |]. split; [exact Hmrn |]. split; [| split; [exact Hallowed |]].
  - by apply reason_not_mrn.
  - intros Hmsh. rewrite Hallowed. unfold e, Esm.parseHL7Message. simpl.
    rewrite (NormalizerProps.esm_segment_absent _ _ Hmsh).
    by rewrite !NormalizerProps.at_or_blank.
Qed.

Lemma esm_event_at_the_gate_witness :
  allowed (snd (validateEventPolicy (Esm.parseHL7Message esmRun1 ""))) = true.
Proof.
  destruct (esm_event_at_the_gate esmRun1 "") as (_ & _ & _ & _ & H).
  apply H. reflexivity.
Defined.

(** X11.  The ESM parser classifies by substring tests on the message type
    it has read (or defaulted), in the order [A01], [A03], [A02]: the first
    test that succeeds decides, wherever in the message type the substring
    stands, and [update] is what is left. *)
Theorem esm_classification (run : Esm.Run) (hl7 : string) :
  let e := Esm.parseHL7Message run hl7 in
  let code := messageType (data e) in
  (occursIn "A01" code → type e = admission)
  ∧ (¬ occursIn "A01" code → occursIn "A03" code → type e = discharge)
  ∧ (¬ occursIn "A01" code → ¬ occursIn "A03" code → occursIn "A02" code →
     type e = transfer)
  ∧ (¬ occursIn "A01" code → ¬ occursIn "A03" code → ¬ occursIn "A02" code →
     type e = update)
  ∧ (absent "MSH" (Esm.splitLines (Esm.trim hl7)) → type e = admission).
Proof.
  intros e code.
  pose proof (NormalizerProps.eventTypeOf_spec code) as (H1 & H2 & H3 & H4).
  assert (Ht : type e = Esm.eventTypeOf code) by reflexivity. rewrite Ht.
  split; [exact H1 |]. split; [exact H2 |]. split; [exact H3 |]. split; [exact H4 |].
  intros Hmsh. unfold code, e, Esm.parseHL7Message. simpl.
  rewrite (NormalizerProps.esm_segment_absent _ _ Hmsh).
  by rewrite NormalizerProps.at_or_blank.
Qed.

(** A patient update (A08) sent with the message structure [ADT_A01] is
    classified as an admission; a discharge as a discharge. *)
Lemma esm_classification_witness :
  type (Esm.parseHL7Message esmRun1 updateWithA01Structure) = admission
  ∧ type (Esm.parseHL7Message esmRun1 dischargeMessage) = discharge.
Proof.
  split.
  - destruct (esm_classification esmRun1 updateWithA01Structure) as (H & _).
    apply H. by exists "ADT^A08^ADT_", "".
  - destruct (esm_classification esmRun1 dischargeMessage) as (_ & H & _).
    apply H.
    + intros Hocc%JsProps.includes_spec. vm_compute in Hocc. discriminate Hocc.
    + by exists "ADT^", "".
Defined.

End PipelineProps.

(** ** The ESM ingest script and [gatherEvents] *)

Module IngestProps.
Import Js Event Hl7Ingest Hl7IngestMain PipelineSpec.

Lemma num_to_string_inj (a b : Z) : num_to_string a = num_to_string b → a = b.
Proof.
  unfold num_to_string. intros H.
  assert (Hnn : ∀ z, Z.to_int z ≠ Decimal.Pos Decimal.Nil ∧ Z.to_int z ≠ Decimal.Neg Decimal.Nil).
  { intros [| p | p]; simpl; split; try discriminate;
      intros [= Hp]; by apply (DecimalPos.Unsigned.to_uint_nonnil p). }
  apply DecimalZ.to_int_inj.
  destruct (Hnn a) as [Ha1 Ha2], (Hnn b) as [Hb1 Hb2].
  pose proof (NilZero.isi _ Ha1 Ha2) as Ia. pose proof (NilZero.isi _ Hb1 Hb2) as Ib.
  rewrite H in Ia. rewrite Ia in Ib. by injection Ib.
Qed.

Lemma append_inj_l (p a b : string) : p +:+ a = p +:+ b → a = b.
Proof. induction p as [| c p IH]; simpl; [done |]. intros [= H]. by apply IH. Qed.

Section WithPaths.
Variables SAMPLE_PATH OUT_PATH : string.

Abbreviation main := (Hl7IngestMain.main SAMPLE_PATH OUT_PATH).

Lemma id_itemOf e : Queue.id (itemOf e) = id e.
Proof. reflexivity. Qed.

Lemma main_effect run w hl7 :
  sample (files w) = Some hl7 →
  let e := parseHL7Message run hl7 in
  fst (main run w) = Done (fst (Queue.enqueue (itemOf e) (queue w)))
  ∧ queue (snd (main run w)) = snd (Queue.enqueue (itemOf e) (queue w))
  ∧ files (snd (main run w)) = {| sample := Some hl7; normalized := Some e |}.
Proof.
  intros Hs e. unfold Hl7IngestMain.main. rewrite Hs. fold e. fold (itemOf e).
  cbn [queue log].
  destruct (Queue.enqueue (itemOf e) (queue w)) as [ok q'] eqn:E.
  cbn [fst snd queue files log sample]. by rewrite Hs.
Qed.

(** X12.  Ingesting a message that has a control id (MSH-10) is idempotent
    on the queue: the first run enqueues the event under ["evt_" +
    control id] unless that id was seen before, and a second run on the same
    file, at whatever time, is refused by [enqueue] and leaves the queue as
    it is; each run rewrites the canonical artifact with its own event. *)
Theorem reingest_is_refused (run1 run2 : Run) (w : World) (hl7 controlId : string) :
  sample (files w) = Some hl7 →
  segment "MSH" (splitLines (trim hl7)) !! 9 = Some controlId →
  controlId ≠ "" →
  let w1 := snd (main run1 w) in
  let w2 := snd (main run2 w1) in
  (fst (main run1 w) = Done true ↔ "evt_" +:+ controlId ∉ Queue.seen (queue w))
  ∧ fst (main run2 w1) = Done false
  ∧ queue w2 = queue w1
  ∧ normalized (files w2) = Some (parseHL7Message run2 hl7).
Proof.
  intros Hs Hmsh Hne w1 w2.
  destruct (NormalizerProps.esm_id_from_control_id hl7 run1 run2 controlId Hmsh Hne)
    as [Hid1 Hid2].
  destruct (main_effect run1 w hl7 Hs) as (F1 & Q1 & Fi1).
  assert (Hs1 : sample (files w1) = Some hl7) by (unfold w1; by rewrite Fi1).
  destruct (main_effect run2 w1 hl7 Hs1) as (F2 & Q2 & Fi2).
  fold w1 in Q1. fold w2 in Q2, Fi2.
  assert (Hseen : id (parseHL7Message run2 hl7) ∈ Queue.seen (queue w1)).
  { rewrite Q1, Hid2, <- id_itemOf. apply QueueProps.enqueue_seen. }
  split; [| split; [| split]].
  - rewrite F1. split.
    + intros [= Hok]. apply QueueProps.enqueue_true_fresh in Hok.
      by rewrite id_itemOf, Hid1 in Hok.
    + intros Hfresh. f_equal. apply QueueProps.enqueue_true_fresh.
      by rewrite id_itemOf, Hid1.
  - rewrite F2. by rewrite (QueueProps.enqueue_dup (itemOf _) _ Hseen).
  - rewrite Q2. by rewrite (QueueProps.enqueue_dup (itemOf _) _ Hseen).
  - by rewrite Fi2.
Qed.

(** X13.  Without a control id the event id is taken from the clock: two
    runs on the same file at different milliseconds give two different ids,
    and both events are enqueued. *)
Theorem reingest_without_control_id (run1 run2 : Run) (w : World) (hl7 : string) :
  sample (files w) = Some hl7 →
  at_or (segment "MSH" (splitLines (trim hl7))) 9 "" = "" →
  dateNow run1 ≠ dateNow run2 →
  queue w = Queue.init →
  let w1 := snd (main run1 w) in
  let w2 := snd (main run2 w1) in
  id (parseHL7Message run1 hl7) = "evt_MSG" +:+ num_to_string (dateNow run1)
  ∧ id (parseHL7Message run1 hl7) ≠ id (parseHL7Message run2 hl7)
  ∧ fst (main run1 w) = Done true
  ∧ fst (main run2 w1) = Done true
  ∧ Queue.q (queue w2)
    = [itemOf (parseHL7Message run1 hl7); itemOf (parseHL7Message run2 hl7)].
Proof.
  intros Hs Hnone Hclock Hq w1 w2.
  assert (Hid : ∀ run, id (parseHL7Message run hl7) = "evt_MSG" +:+ num_to_string (dateNow run)).
  { intros run.
    change (id (parseHL7Message run hl7))
      with ("evt_" +:+ at_or (segment "MSH" (splitLines (trim hl7))) 9
                             ("MSG" +:+ num_to_string (dateNow run))).
    revert Hnone. unfold at_or.
    destruct (segment "MSH" (splitLines (trim hl7)) !! 9) as [s |]; [| done].
    destruct s; [done |]. simpl. discriminate. }
  assert (Hdiff : id (parseHL7Message run1 hl7) ≠ id (parseHL7Message run2 hl7)).
  { rewrite !Hid. intros H. apply append_inj_l, num_to_string_inj in H. done. }
  destruct (main_effect run1 w hl7 Hs) as (F1 & Q1 & Fi1).
  assert (Hs1 : sample (files w1) = Some hl7) by (unfold w1; by rewrite Fi1).
  destruct (main_effect run2 w1 hl7 Hs1) as (F2 & Q2 & Fi2).
  fold w1 in Q1. fold w2 in Q2.
  rewrite Hq in F1, Q1.
  rewrite (QueueProps.enqueue_fresh (itemOf _) Queue.init) in F1, Q1
    by apply not_elem_of_empty.
  cbn [fst snd] in F1, Q1.
  assert (Hfresh : Queue.id (itemOf (parseHL7Message run2 hl7)) ∉ Queue.seen (queue w1)).
  { rewrite Q1. cbn [Queue.seen Queue.init]. rewrite (right_id_L ∅ (∪)), !id_itemOf.
    apply not_elem_of_singleton. intros H. by apply Hdiff. }
  rewrite (QueueProps.enqueue_fresh (itemOf _) _ Hfresh) in F2, Q2. cbn [fst snd] in F2, Q2.
  split; [apply Hid |]. split; [exact Hdiff |]. split; [exact F1 |]. split; [exact F2 |].
  rewrite Q2. cbn [Queue.q]. by rewrite Q1.
Qed.

End WithPaths.

Lemma reingest_is_refused_witness :
  let w := {| files := {| sample := Some Hl7IngestStub.sampleHL7Message; normalized := None |};
              queue := Queue.init; stdout := [] |} in
  let w1 := snd (Hl7IngestMain.main "adt_oru.hl7" "normalized.json" NormalizerSpec.esmRun1 w) in
  fst (Hl7IngestMain.main "adt_oru.hl7" "normalized.json" NormalizerSpec.esmRun1 w) = Done true
  ∧ fst (Hl7IngestMain.main "adt_oru.hl7" "normalized.json" NormalizerSpec.esmRun2 w1) = Done false
  ∧ Queue.size (queue w1) = 1.
Proof.
  intros w w1.
  destruct (reingest_is_refused "adt_oru.hl7" "normalized.json"
              NormalizerSpec.esmRun1 NormalizerSpec.esmRun2 w
              Hl7IngestStub.sampleHL7Message "MSG123456" eq_refl eq_refl)
    as (H1 & H2 & _); [discriminate |].
  split; [| split; [exact H2 | reflexivity]].
  apply H1. apply not_elem_of_empty.
Defined.

Lemma reingest_without_control_id_witness :
  let w := {| files := {| sample := Some noControlId; normalized := None |};
              queue := Queue.init; stdout := [] |} in
  let w1 := snd (Hl7IngestMain.main "adt_oru.hl7" "normalized.json" NormalizerSpec.esmRun1 w) in
  let w2 := snd (Hl7IngestMain.main "adt_oru.hl7" "normalized.json" NormalizerSpec.esmRun2 w1) in
  Queue.id <$> Queue.q (queue w2) = ["evt_MSG1691924880000"; "evt_MSG1691924881000"].
Proof.
  intros w w1 w2.
  destruct (reingest_without_control_id "adt_oru.hl7" "normalized.json"
              NormalizerSpec.esmRun1 NormalizerSpec.esmRun2 w noControlId
              eq_refl eq_refl)
    as (_ & _ & _ & _ & H); [discriminate | reflexivity |].
  fold w1 w2 in H. rewrite H. reflexivity.
Defined.

End IngestProps.

(** ** [gatherEvents]: draining the queue, falling back to the file *)

Module GatherProps.
Import Js Event Gather PipelineSpec.

Section WithPayload.
Context {Payload : Type}.
Variable truthyPayload : Payload -> bool.
Variable asEvent : Payload -> NormalizedEvent.
Variable CANONICAL_PATH : string.

Abbreviation drain := (Gather.drain truthyPayload asEvent).
Abbreviation gatherEvents := (Gather.gatherEvents truthyPayload asEvent CANONICAL_PATH).

Lemma drain_all : ∀ (waiting : list (Queue.QueueItem Payload)) fuel s collected,
  length waiting ≤ fuel →
  drain fuel {| Queue.seen := s; Queue.q := waiting |} collected
  = Some (collected ++ (asEvent <$> List.filter truthyPayload (Queue.payload <$> waiting)),
          {| Queue.seen := s; Queue.q := [] |}).
Proof.
  induction waiting as [| x waiting IH]; intros fuel s collected Hfuel.
  - destruct fuel; simpl; by rewrite app_nil_r.
  - destruct fuel as [| fuel]; [simpl in Hfuel; lia |].
    cbn [Gather.drain Queue.size Queue.q length Nat.ltb Nat.leb Queue.dequeue].
    rewrite IH by (simpl in Hfuel; lia).
    cbn [fmap list_fmap List.filter]. 
    destruct (truthyPayload (Queue.payload x)); cbn [fmap list_fmap]; [| done].
    by rewrite <- app_assoc.
Qed.

Lemma gatherEvents_spec (fuel : nat) (file : CanonicalFile Payload)
    (st : Queue.State Payload) :
  Queue.size st ≤ fuel →
  ∃ g, gatherEvents fuel file st = Some g
    ∧ collected g
      = (if 0 <? Queue.size st
         then asEvent <$> List.filter truthyPayload (Queue.payload <$> Queue.q st)
         else match file with Parsed raw => [asEvent raw] | _ => [] end)
    ∧ Queue.q (queue g) = []
    ∧ Queue.seen (queue g) = Queue.seen st.
Proof.
  intros Hfuel. unfold Gather.gatherEvents.
  destruct (0 <? Queue.size st) eqn:Hsize.
  - destruct st as [s waiting]. unfold Queue.size in Hfuel. cbn [Queue.q] in Hfuel.
    rewrite (drain_all waiting fuel s [] Hfuel). eexists. split; [reflexivity |]. done.
  - apply Nat.ltb_ge in Hsize. unfold Queue.size in Hsize.
    assert (Queue.q st = []) as Hq by (destruct (Queue.q st); [done | simpl in Hsize; lia]).
    destruct file; eexists; (split; [reflexivity |]); done.
Qed.


(** X14.  With a non-empty queue [gatherEvents] ends after as many
    iterations as items are waiting, returns the payloads of the waiting
    items in the order they were enqueued, leaving out those that are falsy,
    and leaves the queue empty with the dedup record as it was.  With an
    empty queue it returns the event of the canonical file when the file is
    there and parses, and nothing otherwise; it never throws. *)
Theorem gatherEvents_result (fuel : nat) (file : CanonicalFile Payload)
    (st : Queue.State Payload) :
  Queue.size st ≤ fuel →
  ∃ g, gatherEvents fuel file st = Some g
    ∧ collected g
      = (if 0 <? Queue.size st
         then asEvent <$> List.filter truthyPayload (Queue.payload <$> Queue.q st)
         else match file with Parsed raw => [asEvent raw] | _ => [] end)
    ∧ Queue.q (queue g) = []
    ∧ Queue.seen (queue g) = Queue.seen st.
Proof. apply gatherEvents_spec. Qed.

End WithPayload.

Lemma filter_all_true {A} (l : list A) : List.filter (λ _, true) l = l.
Proof. induction l as [| x l IH]; simpl; [done | by rewrite IH]. Qed.

(** X15.  In one process, what the ESM ingest script enqueues is what the
    orchestrator gathers: after [main] on a message whose event id is new,
    [gatherEvents] returns the events that were waiting before, followed by
    the event of this message, whatever the canonical file holds. *)
Theorem ingest_then_gather (SAMPLE_PATH OUT_PATH CANONICAL_PATH : string)
    (run : Hl7Ingest.Run) (w : Hl7IngestMain.World) (hl7 : string)
    (fuel : nat) (file : CanonicalFile NormalizedEvent) :
  Hl7IngestMain.sample (Hl7IngestMain.files w) = Some hl7 →
  id (Hl7Ingest.parseHL7Message run hl7) ∉ Queue.seen (Hl7IngestMain.queue w) →
  Queue.size (Hl7IngestMain.queue w) < fuel →
  let w1 := snd (Hl7IngestMain.main SAMPLE_PATH OUT_PATH run w) in
  ∃ g, Gather.gatherEvents objectTruthy castEvent CANONICAL_PATH fuel file
         (Hl7IngestMain.queue w1) = Some g
    ∧ collected g
      = (Queue.payload <$> Queue.q (Hl7IngestMain.queue w))
        ++ [Hl7Ingest.parseHL7Message run hl7]
    ∧ Queue.size (queue g) = 0.
Proof.
  intros Hs Hfresh Hfuel w1.
  destruct (IngestProps.main_effect SAMPLE_PATH OUT_PATH run w hl7 Hs) as (_ & Q1 & _).
  fold w1 in Q1.
  rewrite (QueueProps.enqueue_fresh (itemOf _) _ Hfresh) in Q1. cbn [snd] in Q1.
  assert (Hsize : Queue.size (Hl7IngestMain.queue w1) = S (Queue.size (Hl7IngestMain.queue w))).
  { rewrite Q1. unfold Queue.size. cbn [Queue.q]. rewrite length_app. simpl. lia. }
  assert (Hle : Queue.size (Hl7IngestMain.queue w1) ≤ fuel) by (rewrite Hsize; lia).
  destruct (gatherEvents_spec objectTruthy castEvent CANONICAL_PATH fuel file
              (Hl7IngestMain.queue w1) Hle) as (g & Hg & Hc & Hq & _).
  exists g. split; [exact Hg |]. split.
  - rewrite Hc, Hsize. cbn [Nat.ltb Nat.leb]. rewrite Q1. cbn [Queue.q].
    unfold objectTruthy. rewrite filter_all_true, fmap_app. unfold castEvent.
    rewrite list_fmap_id. reflexivity.
  - unfold Queue.size. by rewrite Hq.
Qed.

Lemma gatherEvents_result_witness :
  ∃ g, Gather.gatherEvents (λ p : option NormalizedEvent, bool_decide (is_Some p))
         (default PolicySpec.badEvent) "normalized.json" 2 Missing
         {| Queue.seen := {[ "a"; "b" ]};
            Queue.q := [Queue.mkItem "a" "HL7v2" (Some PolicySpec.goodEvent);
                        Queue.mkItem "b" "HL7v2" None] |} = Some g
    ∧ collected g = [PolicySpec.goodEvent]
    ∧ Queue.q (queue g) = [].
Proof.
  destruct (gatherEvents_result (λ p : option NormalizedEvent, bool_decide (is_Some p))
              (default PolicySpec.badEvent) "normalized.json" 2 Missing
              {| Queue.seen := {[ "a"; "b" ]};
                 Queue.q := [Queue.mkItem "a" "HL7v2" (Some PolicySpec.goodEvent);
                             Queue.mkItem "b" "HL7v2" None] |} (le_n 2))
    as (g & Hg & Hc & Hq & _).
  exists g. split; [exact Hg |]. split; [exact Hc | exact Hq].
Defined.

Lemma ingest_then_gather_witness :
  ∃ g, Gather.gatherEvents objectTruthy castEvent "normalized.json" 1 Missing
         (Hl7IngestMain.queue
            (snd (Hl7IngestMain.main "adt_oru.hl7" "normalized.json" NormalizerSpec.esmRun1
                    {| Hl7IngestMain.files :=
                         {| Hl7IngestMain.sample := Some Hl7IngestStub.sampleHL7Message;
                            Hl7IngestMain.normalized := None |};
                       Hl7IngestMain.queue := Queue.init;
                       Hl7IngestMain.stdout := [] |}))) = Some g
    ∧ id <$> collected g = ["evt_MSG123456"].
Proof.
  destruct (ingest_then_gather "adt_oru.hl7" "normalized.json" "normalized.json"
              NormalizerSpec.esmRun1
              {| Hl7IngestMain.files :=
                   {| Hl7IngestMain.sample := Some Hl7IngestStub.sampleHL7Message;
                      Hl7IngestMain.normalized := None |};
                 Hl7IngestMain.queue := Queue.init;
                 Hl7IngestMain.stdout := [] |}
              Hl7IngestStub.sampleHL7Message 1 Missing eq_refl)
    as (g & Hg & Hc & _).
  - apply not_elem_of_empty.
  - apply Nat.lt_0_1.
  - exists g. split; [exact Hg |]. rewrite Hc. reflexivity.
Defined.

End GatherProps.

(** ** The ESM parser: line endings *)

Module LineEndingProps.
Import Js Event Hl7Ingest PipelineSpec.

Lemma LF_not_CR : Ascii.eqb LF CR = false.
Proof. reflexivity. Qed.

Lemma splitLines_plain_end line :
  plain line = true → splitLines line = [line].
Proof.
  induction line as [| c line IH]; [done |]. cbn [plain].
  rewrite !andb_true_iff, !negb_true_iff. intros [[Hlf Hcr] Hrest].
  cbn [splitLines]. rewrite Hlf, Hcr. simpl.
  rewrite (IH Hrest). by destruct line.
Qed.

Lemma splitLines_plain_LF line rest :
  plain line = true →
  splitLines (line +:+ String LF rest) = line :: splitLines rest.
Proof.
  induction line as [| c line IH]; intros Hplain.
  - reflexivity.
  - revert Hplain. cbn [plain]. rewrite !andb_true_iff, !negb_true_iff.
    intros [[Hlf Hcr] Hrest].
    change (String c line +:+ String LF rest) with (String c (line +:+ String LF rest)).
    cbn [splitLines]. rewrite Hlf, Hcr. simpl andb. rewrite (IH Hrest).
    by destruct line.
Qed.

Lemma splitLines_plain_CRLF line rest :
  plain line = true →
  splitLines (line +:+ String CR (String LF rest)) = line :: splitLines rest.
Proof.
  induction line as [| c line IH]; intros Hplain.
  - reflexivity.
  - revert Hplain. cbn [plain]. rewrite !andb_true_iff, !negb_true_iff.
    intros [[Hlf Hcr] Hrest].
    change (String c line +:+ String CR (String LF rest))
      with (String c (line +:+ String CR (String LF rest))).
    cbn [splitLines]. rewrite Hlf, Hcr. simpl andb. rewrite (IH Hrest).
    by destruct line.
Qed.

Lemma splitLines_joinLines (sep : string) (lines : list string) :
  sep = LFs ∨ sep = CRLF →
  Forall (λ l, plain l = true) lines →
  lines ≠ [] →
  splitLines (joinLines sep lines) = lines.
Proof.
  intros Hsep Hplain. induction Hplain as [| l ls Hl Hls IH]; [done |]. intros _.
  destruct ls as [| l' ls].
  - simpl. by apply splitLines_plain_end.
  - change (joinLines sep (l :: l' :: ls)) with (l +:+ sep +:+ joinLines sep (l' :: ls)).
    destruct Hsep as [-> | ->].
    + change (l +:+ LFs +:+ ?r) with (l +:+ String LF r).
      rewrite splitLines_plain_LF by done. by rewrite IH.
    + change (l +:+ CRLF +:+ ?r) with (l +:+ String CR (String LF r)).
      rewrite splitLines_plain_CRLF by done. by rewrite IH.
Qed.

Lemma trimStart_clean s : startsClean s = true → trimStart s = s.
Proof.
  destruct s as [| c s]; [done |]. simpl. intros H%negb_true_iff. by rewrite H.
Qed.

Lemma trimEnd_clean s : endsClean s = true → trimEnd s = s.
Proof.
  induction s as [| c s IH]; [done |]. destruct s as [| d s].
  - simpl. intros H%negb_true_iff. by rewrite H.
  - intros H. change (endsClean (String c (String d s))) with (endsClean (String d s)) in H.
    cbn [trimEnd]. cbn [trimEnd] in IH. rewrite (IH H). 
    destruct (trimEnd s); by destruct (isWhite d).
Qed.

Lemma startsClean_app a b : startsClean a = true → startsClean (a +:+ b) = true.
Proof. by destruct a. Qed.

Lemma endsClean_app a b : endsClean b = true → endsClean (a +:+ b) = true.
Proof.
  intros Hb. induction a as [| c a IH]; [done |].
  change (String c a +:+ b) with (String c (a +:+ b)).
  destruct (a +:+ b) eqn:E; [by destruct a, b |]. exact IH.
Qed.

Lemma append_empty_r s : s +:+ "" = s.
Proof.
  induction s as [| c s IH]; [done |].
  change (String c s +:+ "") with (String c (s +:+ "")). by rewrite IH.
Qed.

Lemma append_assoc (a b c : string) : (a +:+ b) +:+ c = a +:+ (b +:+ c).
Proof.
  induction a as [| x a IH]; [done |].
  change ((String x a +:+ b) +:+ c) with (String x ((a +:+ b) +:+ c)).
  change (String x a +:+ (b +:+ c)) with (String x (a +:+ (b +:+ c))). by rewrite IH.
Qed.

Lemma joinLines_cons sep l ls :
  ∃ tail, joinLines sep (l :: ls) = l +:+ tail.
Proof.
  destruct ls as [| l' ls]; [| by eexists].
  exists "". simpl. by rewrite append_empty_r.
Qed.

Lemma joinLines_snoc sep front final :
  ∃ head, joinLines sep (front ++ [final]) = head +:+ final.
Proof.
  induction front as [| l front [head IH]]; [by exists "" |].
  destruct front as [| l' front].
  - exists (l +:+ sep). simpl. by rewrite append_assoc.
  - exists (l +:+ sep +:+ head).
    change (joinLines sep ((l :: l' :: front) ++ [final]))
      with (l +:+ sep +:+ joinLines sep ((l' :: front) ++ [final])).
    rewrite IH. by rewrite !append_assoc.
Qed.

Lemma trim_joinLines sep lines :
  wellShaped lines → trim (joinLines sep lines) = joinLines sep lines.
Proof.
  intros (_ & (first & rest & -> & Hfirst) & (front & final & Hlast & Hfinal)).
  unfold trim. destruct (joinLines_cons sep first rest) as [tail Htail].
  rewrite trimStart_clean by (rewrite Htail; by apply startsClean_app).
  apply trimEnd_clean. rewrite Hlast.
  destruct (joinLines_snoc sep front final) as [head ->]. by apply endsClean_app.
Qed.

Lemma wellShaped_nonempty lines : wellShaped lines → lines ≠ [].
Proof. by intros (_ & (first & rest & -> & _) & _). Qed.

Lemma parse_by_lines run hl7 hl7' :
  splitLines (trim hl7) = splitLines (trim hl7') →
  sameButOriginal (parseHL7Message run hl7) (parseHL7Message run hl7').
Proof.
  intros H. unfold parseHL7Message. rewrite H. unfold sameButOriginal. simpl. done.
Qed.

(** X16.  The ESM parser reads a message written with CR LF line ends as
    it reads the same lines written with LF line ends: for lines without a
    line break in them, the first starting and the last ending with
    something other than white space, both texts are split into exactly
    these lines, and the two events agree in every field but
    [metadata.originalHL7], which keeps the text as it came. *)
Theorem line_endings_do_not_matter (run : Run) (lines : list string) :
  wellShaped lines →
  splitLines (trim (joinLines LFs lines)) = lines
  ∧ splitLines (trim (joinLines CRLF lines)) = lines
  ∧ sameButOriginal (parseHL7Message run (joinLines LFs lines))
                    (parseHL7Message run (joinLines CRLF lines))
  ∧ originalHL7 (metadata (parseHL7Message run (joinLines CRLF lines)))
    = joinLines CRLF lines.
Proof.
  intros Hshape.
  pose proof (wellShaped_nonempty lines Hshape) as Hne.
  pose proof (proj1 Hshape) as Hplain.
  assert (H1 : splitLines (trim (joinLines LFs lines)) = lines).
  { rewrite trim_joinLines by done. apply splitLines_joinLines; auto. }
  assert (H2 : splitLines (trim (joinLines CRLF lines)) = lines).
  { rewrite trim_joinLines by done. apply splitLines_joinLines; auto. }
  split; [exact H1 |]. split; [exact H2 |]. split; [| reflexivity].
  apply parse_by_lines. by rewrite H1, H2.
Qed.

Lemma line_endings_do_not_matter_witness :
  let lines := ["MSH|^~\&|SENDING_APP|SENDING_FACILITY|FACILITY_001|RECEIVING_FACILITY|20230813110800||ADT^A03|MSG123457|P|2.5";
                "PID|1||MRN123456^^^HOSPITAL^MR||DOE^JOHN^||19800101|M"] in
  splitLines (trim (joinLines CRLF lines)) = lines
  ∧ data (parseHL7Message NormalizerSpec.esmRun1 (joinLines LFs lines))
    = data (parseHL7Message NormalizerSpec.esmRun1 (joinLines CRLF lines)).
Proof.
  intros lines.
  assert (Hshape : wellShaped lines).
  { split; [repeat constructor |]. split.
    - eexists _, _. split; reflexivity.
    - exists [hd "" lines]. eexists. split; reflexivity. }
  destruct (line_endings_do_not_matter NormalizerSpec.esmRun1 lines Hshape)
    as (_ & H2 & (_ & _ & _ & _ & _ & Hd & _) & _).
  split; [exact H2 | exact Hd].
Defined.

End LineEndingProps.

(** ** The parsers on a message assembled from fields *)

Module FieldProps.
Import Js Event PipelineSpec FieldsSpec NormalizerSpec.

Lemma split_field_end sep f : lacks sep f = true → split sep f = [f].
Proof.
  induction f as [| c f IH]; [done |]. cbn [lacks].
  rewrite andb_true_iff, negb_true_iff. intros [Hc Hf].
  cbn [split]. rewrite Hc. by rewrite (IH Hf).
Qed.

Lemma split_field sep f rest :
  lacks sep f = true → split sep (f +:+ String sep rest) = f :: split sep rest.
Proof.
  induction f as [| c f IH]; intros Hf.
  - simpl. by rewrite Ascii.eqb_refl.
  - revert Hf. cbn [lacks]. rewrite andb_true_iff, negb_true_iff. intros [Hc Hf].
    change (String c f +:+ String sep rest) with (String c (f +:+ String sep rest)).
    cbn [split]. rewrite Hc. by rewrite (IH Hf).
Qed.

Lemma split_joinLines sep (fields : list string) :
  Forall (λ f, lacks sep f = true) fields →
  fields ≠ [] →
  split sep (joinLines (String sep "") fields) = fields.
Proof.
  intros Hf. induction Hf as [| f fs Hlack Hfs IH]; [done |]. intros _.
  destruct fs as [| f' fs].
  - simpl. by apply split_field_end.
  - change (joinLines (String sep "") (f :: f' :: fs))
      with (f +:+ String sep (joinLines (String sep "") (f' :: fs))).
    rewrite split_field by done. by rewrite IH.
Qed.

Lemma split_joinFields fields :
  fields ≠ [] → Forall (λ f, lacks "|" f = true) fields →
  split "|" (joinFields fields) = fields.
Proof. intros Hne Hf. by apply (split_joinLines "|"). Qed.

Lemma find_fmap {A B} (f : A → B) (p : B → bool) (l : list A) :
  find p (f <$> l) = f <$> find (λ x, p (f x)) l.
Proof.
  induction l as [| x l IH]; [done |]. cbn [fmap list_fmap find].
  destruct (p (f x)); [done | exact IH].
Qed.

Lemma find_Forall {A} (P : A → Prop) (p : A → bool) (l : list A) x :
  Forall P l → find p l = Some x → P x.
Proof.
  induction 1 as [| y l Hy Hl IH]; [done |]. simpl.
  destruct (p y); [by intros [= <-] | exact IH].
Qed.

Lemma esm_segment_fields tag segments :
  fieldsOk segments →
  Esm.segment tag (joinFields <$> segments) = segmentOf tag segments.
Proof.
  intros Hok. unfold Esm.segment, segmentOf. rewrite find_fmap.
  destruct (find (λ fields, startsWith (joinFields fields) tag) segments) as [fields |] eqn:E;
    [| done].
  simpl. destruct (find_Forall _ _ _ _ Hok E) as [Hne Hf]. by apply split_joinFields.
Qed.

(** X17.  The ESM parser gives back the fields a message was assembled
    from.  The message is made of segments whose fields contain no [|],
    written one per line with LF or CR LF line ends; no segment contains a
    line feed or a carriage return, the first one starts with a
    non-white-space character and the last one ends with one (the parser
    trims the message before it splits it, so white space at the two ends
    of the message is not given back).  Then each event field is the field
    at its HL7
    position in the first segment whose text starts with the segment name:
    MSH-9, MSH-5 and MSH-10 for message type, facility and id, PID-3, PID-5,
    PID-7 and PID-8 for MRN, name, date of birth and gender, PV1-3 and PV1-7
    for location and attending physician; a missing or empty field takes
    its default. *)
Theorem esm_reads_fields (run : Esm.Run) (segments : list (list string)) (sep : string) :
  sep = LFs ∨ sep = CRLF →
  fieldsOk segments →
  wellShaped (joinFields <$> segments) →
  let e := Esm.parseHL7Message run (joinLines sep (joinFields <$> segments)) in
  let msh := segmentOf "MSH" segments in
  let pid := segmentOf "PID" segments in
  let pv1 := segmentOf "PV1" segments in
  messageType (data e) = at_or msh 8 "ADT^A01"
  ∧ facilityId e = at_or msh 4 "FACILITY_001"
  ∧ id e = "evt_" +:+ at_or msh 9 ("MSG" +:+ num_to_string (Esm.dateNow run))
  ∧ patientMRN (data e) = at_or pid 3 "MRN_UNKNOWN"
  ∧ patientId e = at_or pid 3 "MRN_UNKNOWN"
  ∧ family (patientName (data e)) = at_or (split "^" (at_or pid 5 "^")) 0 ""
  ∧ given (patientName (data e)) = at_or (split "^" (at_or pid 5 "^")) 1 ""
  ∧ patientDOB (data e) = at_or pid 7 ""
  ∧ patientGender (data e) = at_or pid 8 ""
  ∧ location (data e) = Some (at_or pv1 3 "")
  ∧ attendingPhysician (data e) = Some (at_or pv1 7 "").
Proof.
  intros Hsep Hok Hshape e msh pid pv1.
  assert (Hlines : Esm.splitLines (Esm.trim (joinLines sep (joinFields <$> segments)))
                   = joinFields <$> segments).
  { rewrite LineEndingProps.trim_joinLines by done.
    apply LineEndingProps.splitLines_joinLines; [done | apply Hshape |].
    by apply LineEndingProps.wellShaped_nonempty. }
  unfold e, Esm.parseHL7Message. rewrite Hlines, !esm_segment_fields by done.
  fold msh pid pv1. cbn. done.
Qed.

Lemma esm_reads_fields_witness :
  let segments := [ ["MSH"; "^~\\&"; "APP"; "FAC"; "FACILITY_002"; "RFAC"; "20230813110800"; "";
                     "ADT^A02"; "MSG7"; "P"; "2.5"];
                    ["EVN"; ""; "202308131108"];
                    ["PID"; "1"; ""; "MRN7"; ""; "DOE^JANE"; ""; "19800101"; "F"] ] in
  let e := Esm.parseHL7Message esmRun1 (joinLines CRLF (joinFields <$> segments)) in
  id e = "evt_MSG7" ∧ facilityId e = "FACILITY_002" ∧ patientMRN (data e) = "MRN7"
  ∧ given (patientName (data e)) = "JANE" ∧ location (data e) = Some "".
Proof.
  intros segments e.
  assert (Hok : fieldsOk segments) by (repeat constructor; discriminate).
  assert (Hshape : wellShaped (joinFields <$> segments)).
  { split; [repeat constructor |]. split.
    - eexists _, _. split; reflexivity.
    - exists (joinFields <$> take 2 segments). eexists. split; reflexivity. }
  destruct (esm_reads_fields esmRun1 segments CRLF (or_intror eq_refl) Hok Hshape)
    as (_ & H2 & H3 & H4 & _ & _ & H7 & _ & _ & H10 & _).
  fold e in H2, H3, H4, H7, H10.
  rewrite H2, H3, H4, H7, H10. repeat split.
Defined.

(** *** The two parsers side by side *)

Lemma plain_lacks_LF l : plain l = true → lacks Stub.LF l = true.
Proof.
  induction l as [| c l IH]; [done |]. cbn [plain lacks].
  rewrite !andb_true_iff. intros [[Hlf _] Hl]. split; [exact Hlf | by apply IH].
Qed.

Lemma stub_lines lines :
  Forall (λ l, plain l = true) lines → lines ≠ [] →
  split Stub.LF (joinLines LFs lines) = lines.
Proof.
  intros Hplain Hne. apply (split_joinLines Stub.LF); [| done].
  eapply Forall_impl; [exact Hplain |]. intros l. apply plain_lacks_LF.
Qed.

Lemma name_parts (pid : list string) i :
  at_or (match pid !! 5 with
         | Some f => if truthy f then split "^" f else [""; ""]
         | None => [""; ""]
         end) i ""
  = at_or (split "^" (at_or pid 5 "^")) i "".
Proof.
  unfold at_or at 3. destruct (pid !! 5) as [f |]; [| by destruct i as [| [| i]]].
  destruct (truthy f); [done | by destruct i as [| [| i]]].
Qed.

(** X18.  On a message that starts with its MSH line, whose lines contain
    no line feed or carriage return and are joined by LF, and whose last
    line ends with a non-white-space character (the ESM parser trims the
    message, the stub parser does not: white space at the end of the last
    line makes them differ), the stub parser and the ESM parser agree on the
    message type, the facility, the patient name, the date of birth, the
    gender, the location and the attending physician.  They differ only in
    how they fill an empty MRN (['']/['unknown'] against ['MRN_UNKNOWN']),
    in the event type of discharges and transfers, which the stub calls
    updates, and in the id. *)
Theorem parsers_agree (run : Stub.Run) (run' : Esm.Run) (lines : list string) :
  wellShaped lines →
  startsWith (hd "" lines) "MSH" = true →
  let hl7 := joinLines LFs lines in
  let e' := Esm.parseHL7Message run' hl7 in
  ∃ e, Stub.parseHL7Message run hl7 = Some e
    ∧ messageType (data e) = messageType (data e')
    ∧ facilityId e = facilityId e'
    ∧ patientName (data e) = patientName (data e')
    ∧ patientDOB (data e) = patientDOB (data e')
    ∧ patientGender (data e) = patientGender (data e')
    ∧ location (data e) = location (data e')
    ∧ attendingPhysician (data e) = attendingPhysician (data e')
    ∧ patientMRN (data e') = (if truthy (patientMRN (data e))
                               then patientMRN (data e) else "MRN_UNKNOWN")
    ∧ type e = (match type e' with
                | discharge | transfer => update
                | t => t
                end).
Proof.
  intros Hshape Hmsh hl7 e'.
  pose proof (LineEndingProps.wellShaped_nonempty lines Hshape) as Hne.
  pose proof (proj1 Hshape) as Hplain.
  assert (Hl' : Esm.splitLines (Esm.trim hl7) = lines).
  { unfold hl7. rewrite LineEndingProps.trim_joinLines by done.
    apply LineEndingProps.splitLines_joinLines; auto. }
  assert (Hl : split Stub.LF hl7 = lines) by (by apply stub_lines).
  destruct lines as [| line0 rest]; [done |]. cbn [hd] in Hmsh.
  unfold Stub.parseHL7Message. rewrite Hl. cbn [lookup list_lookup mbind option_bind].
  eexists. split; [reflexivity |].
  assert (Hseg : ∀ tag, Esm.segment tag (line0 :: rest)
                  = match Stub.segment tag (line0 :: rest) with [] => [""] | s => s end).
  { intros tag. unfold Esm.segment, Stub.segment.
    destruct (find _ (line0 :: rest)) as [l |]; [| done]. simpl.
    by destruct (JsProps.split_nonempty "|" l) as (a & b & ->). }
  assert (Hat : ∀ tag i d, at_or (Esm.segment tag (line0 :: rest)) i d
                 = at_or (Stub.segment tag (line0 :: rest)) i d).
  { intros tag i d. rewrite Hseg. destruct (Stub.segment tag (line0 :: rest)); [| done].
    by rewrite NormalizerProps.at_or_blank, JsProps.at_or_nil. }
  assert (Hhead : Esm.segment "MSH" (line0 :: rest) = split "|" line0).
  { unfold Esm.segment. cbn [find]. by rewrite Hmsh. }
  unfold e', Esm.parseHL7Message. rewrite Hl'. cbn [data messageType facilityId
    patientName patientDOB patientGender location attendingPhysician patientMRN type].
  rewrite Hhead, !Hat.
  split; [done |]. split; [done |]. split.
  { f_equal; apply name_parts. }
  split; [done |]. split; [done |]. split; [done |]. split; [done |]. split.
  - unfold at_or. destruct (Stub.segment "PID" (line0 :: rest) !! 3) as [s |]; [| done].
    by destruct s.
  - unfold Esm.eventTypeOf.
    destruct (includes (at_or (split "|" line0) 8 "ADT^A01") "A01"); [done |].
    destruct (includes _ "A03"); [done |]. by destruct (includes _ "A02").
Qed.

Lemma parsers_agree_witness :
  let hl7 := joinLines LFs [NormalizerSpec.mshOnly; "PID|1||MRN123456||DOE^JOHN||19800101|M"] in
  ∃ e, Stub.parseHL7Message stubRun1 hl7 = Some e
    ∧ patientName (data e) = patientName (data (Esm.parseHL7Message esmRun1 hl7))
    ∧ patientMRN (data (Esm.parseHL7Message esmRun1 hl7)) = "MRN123456".
Proof.
  intros hl7.
  assert (Hshape : wellShaped [NormalizerSpec.mshOnly; "PID|1||MRN123456||DOE^JOHN||19800101|M"]).
  { split; [repeat constructor |]. split.
    - eexists _, _. split; reflexivity.
    - exists [NormalizerSpec.mshOnly]. eexists. split; reflexivity. }
  destruct (parsers_agree stubRun1 esmRun1 _ Hshape eq_refl)
    as (e & He & _ & _ & Hname & _ & _ & _ & _ & Hmrn & _).
  exists e. split; [exact He |]. split; [exact Hname |].
  fold hl7 in Hmrn. rewrite Hmrn.
  assert (He' : Stub.parseHL7Message stubRun1 hl7 = Some e) by exact He.
  vm_compute in He'. injection He' as <-. reflexivity.
Defined.

End FieldProps.

(** ** The orchestrator: downstream work happens for admitted events only *)

Module EffectsProps.
Import Js Event Orchestrator Json Agent AgentSpec.

(** X19.  The simulated database write is logged once for every event
    that the policy gate admits and never for an event that it denies or
    on which it throws: over the events that the loop gets to (those
    before the first payload whose [data.patientName] cannot be read), the
    number of "Writing to database" lines grows by the number of events for
    which [validateEventPolicy] returns [allowed: true], and so does
    [successCount]; an event that the gate denies adds no such line and
    no success. *)
Theorem writes_follow_the_gate
    (convertedAboveZero : Json.t -> Completion bool)
    (events : list Json.t) (w : World) :
  let w' := world (processAll convertedAboveZero events w) in
  let admissions :=
    length (filter (λ e, admitted convertedAboveZero e = true) (reached events)) in
  dbWrites (stdout w') = dbWrites (stdout w) + admissions
  ∧ successCount (metrics w') = successCount (metrics w) + admissions
  ∧ ∀ event w0,
      let w1 := world (processEvent convertedAboveZero event w0) in
      dbWrites (stdout w1)
        = dbWrites (stdout w0)
          + tick (loggable event && admitted convertedAboveZero event)
      ∧ successCount (metrics w1)
        = successCount (metrics w0)
          + tick (loggable event && admitted convertedAboveZero event).
Proof.
  intros w' admissions.
  assert (Hadm : ∀ e, admitted convertedAboveZero e = succeeded convertedAboveZero e).
  { intros e. unfold admitted, succeeded, outcome.
    destruct (snd (validateEventPolicy convertedAboveZero e)) as [policy | err];
      [by destruct (allowed policy) | done]. }
  assert (Hfilter : ∀ l : list Json.t,
            filter (λ e, admitted convertedAboveZero e = true) l
            = filter (λ e, succeeded convertedAboveZero e = true) l).
  { intros l. apply list_filter_iff. intros e. by rewrite Hadm. }
  pose proof (OrchestratorProps.processAll_reached convertedAboveZero events w)
    as (_ & _ & T3 & _ & _ & _ & _ & T8).
  fold w' in T3, T8. unfold admissions. rewrite Hfilter.
  split; [exact T8 |]. split; [exact T3 |].
  intros event w0. rewrite Hadm.
  destruct (loggable event) eqn:Hlog.
  - destruct (OrchestratorProps.processEvent_loggable convertedAboveZero event w0 Hlog)
      as (w1 & -> & M1 & _ & _ & _ & D1).
    pose proof (OrchestratorProps.tryBlock_spec convertedAboveZero event w1)
      as (_ & _ & S3 & _ & _ & _ & _ & S8 & _).
    simpl. rewrite S3, S8, M1, D1. done.
  - destruct (OrchestratorProps.processEvent_not_loggable convertedAboveZero event w0 Hlog)
      as (w1 & err & -> & M1 & _ & _ & _ & D1).
    simpl. rewrite M1, D1. lia.
Qed.

Lemma writes_follow_the_gate_witness :
  let w' := world (processAll noConversion
                     [ofEvent PolicySpec.goodEvent; ofEvent PolicySpec.badEvent;
                      numericMessageType; ofEvent PolicySpec.goodEvent]
                     (start Metrics.init)) in
  dbWrites (stdout w') = 2 ∧ successCount (metrics w') = 2.
Proof.
  pose proof (writes_follow_the_gate noConversion
                [ofEvent PolicySpec.goodEvent; ofEvent PolicySpec.badEvent;
                 numericMessageType; ofEvent PolicySpec.goodEvent]
                (start Metrics.init)) as (H1 & H2 & _).
  split; [rewrite H1 | rewrite H2]; vm_compute; reflexivity.
Defined.

End EffectsProps.
